(** * voc: image analysis and speech sequencing service

    A shallow embedding of [src/services/geminiService.ts].

    - JavaScript strings are sequences of UTF-16 code units, modelled as
      [list Z].
    - JavaScript numbers are IEEE 754 binary64 values and the elements of a
      [Float32Array] are binary32 values; both are modelled with the
      [spec_float] operations of the standard library, so rounding is part
      of the model.
    - A [throw] (or a rejected promise that is awaited) is the [Throw]
      branch of [outcome].
    - Typed arrays and audio channels are lists updated by index. *)

From Stdlib Require Import ZArith List Lia QArith SpecFloat String Ascii.
From stdpp Require Import base list.

Set Warnings "-register-all".
Open Scope Z_scope.

(** ** Strings, errors and outcomes *)

Abbreviation jsstring := (list Z).

(** The code units of an ASCII literal of the source. *)
Definition lit (s : string) : jsstring :=
  map (fun a => Z.of_N (N_of_ascii a)) (list_ascii_of_string s).

Inductive error : Type :=
| Error (message : jsstring)     (* new Error(message), thrown by the service code *)
| TypeError                      (* raised by the language runtime *)
| RangeError
| URIError
| SyntaxError
| DOMException (name : string)   (* raised by the browser API *)
| Reason (tag : nat).            (* any other rejection value of the environment *)

Inductive outcome (A : Type) : Type :=
| Ok (a : A)
| Throw (e : error).
Arguments Ok {A} a.
Arguments Throw {A} e.

Definition obind {A B} (o : outcome A) (f : A -> outcome B) : outcome B :=
  match o with
  | Ok a => f a
  | Throw e => Throw e
  end.

Declare Scope outcome_scope.
Delimit Scope outcome_scope with outcome.
Notation "'let!' x ':=' o 'in' k" := (obind o (fun x => k))
  (at level 10, x pattern, o at level 100, k at level 200) : outcome_scope.

(** [for (let i = 0; i < n; i++) body], threading the state the body mutates. *)
Definition for_range {S : Type} (n : nat) (body : nat -> S -> S) (s : S) : S :=
  foldl (fun s i => body i s) s (seq 0 n).

(** ** Numbers *)

Module Number.

Definition prec := 53.
Definition emax := 1024.

(** An integer of the source as a binary64 number. *)
Definition of_Z (v : Z) : spec_float := binary_normalize prec emax v 0 false.

(** The [/] operator on numbers. *)
Definition div : spec_float -> spec_float -> spec_float := SFdiv prec emax.

(** Storing a number into a [Float32Array] element rounds it to binary32
    (round to nearest, ties to even). *)
Definition fround (x : spec_float) : spec_float :=
  match x with
  | S754_finite s m e => binary_round 24 128 s m e
  | _ => x
  end.

(** The exact rational value of a finite number. *)
Definition toQ (x : spec_float) : option Q :=
  match x with
  | S754_zero _ => Some (0 # 1)%Q
  | S754_finite s m e =>
      let n := cond_Zopp s (Zpos m) in
      Some (match e with
            | Zneg p => (n # (2 ^ p)%positive)%Q
            | _ => ((n * 2 ^ e) # 1)%Q
            end)
  | _ => None
  end.

Definition zero : spec_float := S754_zero false.

End Number.

(** ** [atob]: the platform's forgiving base64 decoder *)

Definition is_ascii_whitespace (c : Z) : bool :=
  (c =? 9) || (c =? 10) || (c =? 12) || (c =? 13) || (c =? 32).

Definition base64_value (c : Z) : option Z :=
  if (65 <=? c) && (c <=? 90) then Some (c - 65)
  else if (97 <=? c) && (c <=? 122) then Some (c - 71)
  else if (48 <=? c) && (c <=? 57) then Some (c + 4)
  else if c =? 43 then Some 62
  else if c =? 47 then Some 63
  else None.

Definition strip_padding (data : jsstring) : jsstring :=
  if (Z.of_nat (length data) mod 4 =? 0) then
    match rev data with
    | 61 :: 61 :: r => rev r
    | 61 :: r => rev r
    | _ => data
    end
  else data.

Fixpoint base64_values (data : jsstring) : option (list Z) :=
  match data with
  | [] => Some []
  | c :: data' =>
      match base64_value c, base64_values data' with
      | Some v, Some vs => Some (v :: vs)
      | _, _ => None
      end
  end.

Fixpoint decode_sextets (l : list Z) : list Z :=
  match l with
  | a :: b :: c :: d :: rest =>
      let n := ((a * 64 + b) * 64 + c) * 64 + d in
      (n / 65536) :: (n / 256 mod 256) :: (n mod 256) :: decode_sextets rest
  | [a; b; c] =>
      let n := ((a * 64 + b) * 64 + c) / 4 in
      [n / 256; n mod 256]
  | [a; b] => [(a * 64 + b) / 16]
  | _ => []
  end.

Definition atob (data : jsstring) : outcome jsstring :=
  let data := filter (fun c => is_ascii_whitespace c = false) data in
  let data := strip_padding data in
  if Z.of_nat (length data) mod 4 =? 1 then Throw (DOMException "InvalidCharacterError")
  else match base64_values data with
       | Some vs => Ok (decode_sextets vs)
       | None => Throw (DOMException "InvalidCharacterError")
       end.

(** ** Typed arrays and audio buffers *)

(** [s.charCodeAt(i)]; out of range the source would read [NaN], which a
    [Uint8Array] stores as 0. *)
Definition charCodeAt (s : jsstring) (i : nat) : Z := default 0 (s !! i).

(** Conversion of a number to an element of a [Uint8Array]. *)
Definition ToUint8 (c : Z) : Z := c mod 256.

Definition ToInt16 (u : Z) : Z :=
  let u := u mod 65536 in
  if u <? 32768 then u else u - 65536.

(** [new Int16Array(buffer)] over the whole buffer: a view of the same
    bytes, two per element, low byte first on the little-endian hosts the
    source assumes. A buffer whose byte length is odd is refused. *)
Fixpoint int16_elements (bytes : list Z) : list Z :=
  match bytes with
  | lo :: hi :: rest => ToInt16 (Z.lor lo (Z.shiftl hi 8)) :: int16_elements rest
  | _ => []
  end.

Definition Int16Array_of_buffer (bytes : list Z) : outcome (list Z) :=
  if Nat.even (length bytes) then Ok (int16_elements bytes) else Throw RangeError.

(** [target.set(source, offset)] on a typed array. *)
Definition TypedArray_set {A} (target source : list A) (offset : nat)
  : outcome (list A) :=
  if (length target <? length source + offset)%nat then Throw RangeError
  else Ok (list_inserts offset source target).

Module AudioBuffer.

Record t : Type := mk {
  numberOfChannels : Z;
  length : nat;
  sampleRate : Z;
  channels : list (list spec_float)
}.

End AudioBuffer.

Abbreviation AudioBuffer := AudioBuffer.t.

(** [ctx.createBuffer(numberOfChannels, length, sampleRate)]: a zero-filled
    buffer; an argument that is zero or negative is refused. *)
Definition createBuffer (numberOfChannels : Z) (length : nat) (sampleRate : Z)
  : outcome AudioBuffer :=
  if (numberOfChannels <=? 0) || (length =? 0)%nat || (sampleRate <=? 0)
  then Throw (DOMException "NotSupportedError")
  else Ok (AudioBuffer.mk numberOfChannels length sampleRate
             (replicate (Z.to_nat numberOfChannels) (replicate length Number.zero))).

(** [buffer.getChannelData(channel)]. *)
Definition getChannelData (buffer : AudioBuffer) (channel : nat)
  : outcome (list spec_float) :=
  match AudioBuffer.channels buffer !! channel with
  | Some data => Ok data
  | None => Throw (DOMException "IndexSizeError")
  end.

(** The array returned by [getChannelData] shares the buffer's storage:
    writing through it changes the buffer. [setChannelData] is that write. *)
Definition setChannelData (buffer : AudioBuffer) (channel : nat)
  (data : list spec_float) : AudioBuffer :=
  AudioBuffer.mk (AudioBuffer.numberOfChannels buffer) (AudioBuffer.length buffer)
    (AudioBuffer.sampleRate buffer) (<[channel := data]> (AudioBuffer.channels buffer)).

(** [buffer.copyToChannel(source, channel)]. *)
Definition copyToChannel (buffer : AudioBuffer) (source : list spec_float)
  (channel : nat) : outcome AudioBuffer :=
  match AudioBuffer.channels buffer !! channel with
  | Some data => Ok (setChannelData buffer channel (list_inserts 0 source data))
  | None => Throw (DOMException "IndexSizeError")
  end.

(** ** decodePCM *)

Definition pcm_sample (v : Z) : spec_float :=
  Number.fround (Number.div (Number.of_Z v) (Number.of_Z 32768)).

Definition decodePCM (base64Data : jsstring) : outcome AudioBuffer :=
  (let! binaryString := atob base64Data in
   let len := length binaryString in
   let bytes :=
     for_range len (fun i bytes => <[i := ToUint8 (charCodeAt binaryString i)]> bytes)
       (replicate len 0) in
   let! int16View := Int16Array_of_buffer bytes in
   let float32Data :=
     for_range (length int16View)
       (fun i data => <[i := pcm_sample (default 0 (int16View !! i))]> data)
       (replicate (length int16View) Number.zero) in
   let! buffer := createBuffer 1 (length float32Data) 24000 in
   let! buffer := copyToChannel buffer float32Data 0 in
   Ok buffer)%outcome.


(** ** Values of the language, as [JSON.parse] produces them *)

Inductive value : Type :=
| VUndefined
| VNull
| VBoolean (b : bool)
| VNumber (x : spec_float)
| VString (s : jsstring)
| VArray (elements : list value)
| VObject (properties : list (jsstring * value)).

Definition jsstring_eqb (s t : jsstring) : bool := bool_decide (s = t).

Fixpoint own_property (key : jsstring) (properties : list (jsstring * value))
  : option value :=
  match properties with
  | [] => None
  | (k, v) :: rest => if jsstring_eqb k key then Some v else own_property key rest
  end.

(** [v.key] for a key that no prototype defines ([vocab], [sentence],
    [reading]): reading a property of [undefined] or [null] throws, a
    primitive or an array has no such property. *)
Definition Get (v : value) (key : jsstring) : outcome value :=
  match v with
  | VUndefined | VNull => Throw TypeError
  | VObject properties => Ok (default VUndefined (own_property key properties))
  | _ => Ok VUndefined
  end.

Section ToString.

(** The decimal rendering of a number is the platform's. *)
Variable Number_toString : spec_float -> jsstring.

(** The string conversion a template literal applies to [${v}]. An array
    is joined with commas ([undefined] and [null] elements are empty); a
    plain object renders as [[object Object]] unless its own data property
    [toString] hides the inherited method, and then the conversion throws. *)
Fixpoint ToString (v : value) : outcome jsstring :=
  match v with
  | VUndefined => Ok (lit "undefined")
  | VNull => Ok (lit "null")
  | VBoolean b => Ok (lit (if b then "true" else "false"))
  | VNumber x => Ok (Number_toString x)
  | VString s => Ok s
  | VArray elements =>
      (fix join (first : bool) (l : list value) : outcome jsstring :=
         match l with
         | [] => Ok []
         | e :: l' =>
             (let! s := match e with
                        | VUndefined | VNull => Ok []
                        | _ => ToString e
                        end in
              let! rest := join false l' in
              Ok ((if first then [] else lit ",") ++ s ++ rest))%outcome
         end) true elements
  | VObject properties =>
      match own_property (lit "toString") properties with
      | Some _ => Throw TypeError
      | None => Ok (lit "[object Object]")
      end
  end.

End ToString.

(** ** Regular expression [/^[\s\d\.\u2460-\u2473]+/] and [String.prototype.replace] *)

(** [\s]: white space and line terminators. *)
Definition is_whitespace (c : Z) : bool :=
  ((9 <=? c) && (c <=? 13)) || (c =? 32) || (c =? 160) || (c =? 5760)
  || ((8192 <=? c) && (c <=? 8202)) || (c =? 8232) || (c =? 8233)
  || (c =? 8239) || (c =? 8287) || (c =? 12288) || (c =? 65279).

(** [\d]. *)
Definition is_digit (c : Z) : bool := (48 <=? c) && (c <=? 57).

(** The character class [[\s\d\.\u2460-\u2473]]. *)
Definition leading_marker (c : Z) : bool :=
  is_whitespace c || is_digit c || (c =? 46) || ((9312 <=? c) && (c <=? 9331)).

(** The greedy repetition of a class at the start of [s]: how many code
    units it consumes. *)
Fixpoint class_star (cls : Z -> bool) (s : jsstring) : nat :=
  match s with
  | c :: s' => if cls c then S (class_star cls s') else O
  | [] => O
  end.

(** [/^[cls]+/] against [s]: the end of the match, if there is one. *)
Definition match_leading_plus (cls : Z -> bool) (s : jsstring) : option nat :=
  match class_star cls s with
  | O => None
  | S n => Some (S n)
  end.

(** [s.replace(re, replacement)] for a regular expression anchored at the
    start and a replacement without [$] patterns. *)
Definition replace_leading (cls : Z -> bool) (replacement s : jsstring) : jsstring :=
  match match_leading_plus cls s with
  | Some n => replacement ++ drop n s
  | None => s
  end.

(** [parsed.vocab.replace(/^[\s\d\.\u2460-\u2473]+/, '')]: only a string
    has the method. *)
Definition cleanVocab_of (vocab : value) : outcome jsstring :=
  match vocab with
  | VString s => Ok (replace_leading leading_marker [] s)
  | _ => Throw TypeError
  end.

(** ** [encodeURIComponent] *)

Definition is_uri_unreserved (c : Z) : bool :=
  ((65 <=? c) && (c <=? 90)) || ((97 <=? c) && (c <=? 122)) || ((48 <=? c) && (c <=? 57))
  || (c =? 45) || (c =? 95) || (c =? 46) || (c =? 33) || (c =? 126) || (c =? 42)
  || (c =? 39) || (c =? 40) || (c =? 41).

Definition hex_digit (d : Z) : Z := if d <? 10 then 48 + d else 55 + d.

Definition percent_encode (byte : Z) : jsstring :=
  [37; hex_digit (byte / 16); hex_digit (byte mod 16)].

Definition utf8_encode (cp : Z) : list Z :=
  if cp <? 128 then [cp]
  else if cp <? 2048 then [192 + cp / 64; 128 + cp mod 64]
  else if cp <? 65536 then [224 + cp / 4096; 128 + cp / 64 mod 64; 128 + cp mod 64]
  else [240 + cp / 262144; 128 + cp / 4096 mod 64; 128 + cp / 64 mod 64; 128 + cp mod 64].

Definition is_high_surrogate (c : Z) : bool := (55296 <=? c) && (c <=? 56319).
Definition is_low_surrogate (c : Z) : bool := (56320 <=? c) && (c <=? 57343).

Fixpoint encodeURIComponent (s : jsstring) : outcome jsstring :=
  match s with
  | [] => Ok []
  | c :: s' =>
      if is_uri_unreserved c then
        (let! rest := encodeURIComponent s' in Ok (c :: rest))%outcome
      else if is_low_surrogate c then Throw URIError
      else if is_high_surrogate c then
        match s' with
        | c2 :: s'' =>
            if is_low_surrogate c2 then
              (let! rest := encodeURIComponent s'' in
               Ok (concat (map percent_encode
                             (utf8_encode ((c - 55296) * 1024 + (c2 - 56320) + 65536)))
                     ++ rest))%outcome
            else Throw URIError
        | [] => Throw URIError
        end
      else
        (let! rest := encodeURIComponent s' in
         Ok (concat (map percent_encode (utf8_encode c)) ++ rest))%outcome
  end.

(** ** Asynchronous functions

    What the service awaits is supplied by the environment: the network,
    the file reader and the remote model. An asynchronous function is a
    tree whose nodes are the calls it awaits; running it against an
    environment records the calls in a trace. *)

Inductive Blob : Type := BlobHandle (id : nat).

Module Response.

Record t : Type := mk {
  ok : bool;
  statusText : jsstring;
  body : nat
}.

End Response.

Abbreviation Response := Response.t.

(** The two requests the service sends to [ai.models.generateContent]. The
    instruction text and the response schema of the analysis request are
    constants of the source and are not repeated here. *)
Inductive GenerateContentParameters : Type :=
| AnalyzeImage (model mimeType : string) (data : option jsstring)
| SynthesizeSpeech (model voiceName : string) (text : jsstring).

Module GenerateContentResponse.

Record t : Type := mk {
  text : option jsstring;        (* response.text *)
  audioData : option jsstring    (* response.candidates?.[0]?.content?.parts?.[0]?.inlineData?.data *)
}.

End GenerateContentResponse.

Abbreviation GenerateContentResponse := GenerateContentResponse.t.

Inductive console_method : Type := warn | error_.

Inductive call : Type -> Type :=
| fetch (url : jsstring) : call Response
| Response_blob (response : Response) : call Blob
| FileReader_readAsDataURL (blob : Blob) : call jsstring
| generateContent (params : GenerateContentParameters) : call GenerateContentResponse
| console (method : console_method) (message : string) (e : error) : call unit.

Inductive async (A : Type) : Type :=
| Return (o : outcome A)
| Await {T : Type} (c : call T) (k : outcome T -> async A).
Arguments Return {A} o.
Arguments Await {A T} c k.

Definition await {T} (c : call T) : async T := Await c Return.

Definition throw {A} (e : error) : async A := Return (Throw e).

Fixpoint bind {A B} (p : async A) (f : A -> async B) : async B :=
  match p with
  | Return (Ok a) => f a
  | Return (Throw e) => Return (Throw e)
  | Await c k => Await c (fun r => bind (k r) f)
  end.

(** [try { p } catch (e) { handler e }]. *)
Fixpoint try_catch {A} (p : async A) (handler : error -> async A) : async A :=
  match p with
  | Return (Ok a) => Return (Ok a)
  | Return (Throw e) => handler e
  | Await c k => Await c (fun r => try_catch (k r) handler)
  end.

Declare Scope async_scope.
Delimit Scope async_scope with async.
Notation "'let*' x ':=' p 'in' k" := (bind p (fun x => k))
  (at level 10, x pattern, p at level 100, k at level 200) : async_scope.

(** [console.warn(message, e)] and [console.error(message, e)] never throw. *)
Definition console_log (method : console_method) (message : string) (e : error)
  : async unit :=
  Await (console method message e) (fun _ => Return (Ok tt)).

Definition environment : Type := forall T, call T -> outcome T.

Inductive event : Type :=
| Called {T : Type} (c : call T)
| Settled {T : Type} (c : call T).

(** Awaiting one call after the other. *)
Fixpoint run {A} (env : environment) (p : async A) : list event * outcome A :=
  match p with
  | Return o => ([], o)
  | Await c k =>
      let (trace, o) := run env (k (env _ c)) in
      (Called c :: Settled c :: trace, o)
  end.

(** *** [Promise.all] of two promises

    Calling an asynchronous function runs it up to its first [await]: the
    call it awaits is issued at once. [Promise.all] then waits. The
    environment delivers the answers in an order of its own, the
    [schedule]: each entry names the argument (0 or 1) whose pending call
    settles next. The promise is fulfilled, with the results in the order
    of the arguments, once both functions have returned, and rejected as
    soon as one of them throws. With a schedule that leaves a call
    unanswered the promise stays pending ([None]). *)

Definition issued {A} (p : async A) : list event :=
  match p with
  | Await c _ => [Called c]
  | Return _ => []
  end.

Definition resume {A} (env : environment) (p : async A) : list event * async A :=
  match p with
  | Await c k => let p' := k (env _ c) in (Settled c :: issued p', p')
  | Return _ => ([], p)
  end.

Definition rejection {A} (p : async A) : option error :=
  match p with
  | Return (Throw e) => Some e
  | _ => None
  end.

Definition both_fulfilled {A B} (p1 : async A) (p2 : async B) : option (A * B) :=
  match p1, p2 with
  | Return (Ok a), Return (Ok b) => Some (a, b)
  | _, _ => None
  end.

Fixpoint Promise_all_wait {A B} (env : environment) (schedule : list nat)
  (p1 : async A) (p2 : async B) : list event * option (outcome (A * B)) :=
  match both_fulfilled p1 p2 with
  | Some values => ([], Some (Ok values))
  | None =>
      match schedule with
      | [] => ([], None)
      | O :: schedule' =>
          let (trace, p1') := resume env p1 in
          match rejection p1' with
          | Some e => (trace, Some (Throw e))
          | None =>
              let (trace', r) := Promise_all_wait env schedule' p1' p2 in
              (trace ++ trace', r)
          end
      | 1%nat :: schedule' =>
          let (trace, p2') := resume env p2 in
          match rejection p2' with
          | Some e => (trace, Some (Throw e))
          | None =>
              let (trace', r) := Promise_all_wait env schedule' p1 p2' in
              (trace ++ trace', r)
          end
      | _ :: schedule' => Promise_all_wait env schedule' p1 p2
      end
  end.

Definition Promise_all {A B} (env : environment) (schedule : list nat)
  (p1 : async A) (p2 : async B) : list event * option (outcome (A * B)) :=
  let trace := issued p1 ++ issued p2 in
  match rejection p1, rejection p2 with
  | Some e, _ => (trace, Some (Throw e))
  | None, Some e => (trace, Some (Throw e))
  | None, None =>
      let (trace', r) := Promise_all_wait env schedule p1 p2 in
      (trace ++ trace', r)
  end.

(** ** The service *)

Module AnalysisResult.

Record t : Type := mk {
  vocab : jsstring;
  sentence : value;
  japanese : jsstring;
  reading : value
}.

End AnalysisResult.

Abbreviation AnalysisResult := AnalysisResult.t.

(** [s.split(',')]. *)
Fixpoint split_comma (s : jsstring) : list jsstring :=
  match s with
  | [] => [[]]
  | c :: s' =>
      if c =? 44 then [] :: split_comma s'
      else match split_comma s' with
           | piece :: pieces => (c :: piece) :: pieces
           | [] => [[c]]
           end
  end.

(** The promise is rejected when the reader reports an error and resolved
    with the part of the data URL after its first comma otherwise; that
    part is [undefined] ([None]) when the URL has no comma. *)
Definition blobToBase64 (blob : Blob) : async (option jsstring) :=
  (let* base64String := await (FileReader_readAsDataURL blob) in
   let base64Content := split_comma base64String !! 1%nat in
   Return (Ok base64Content))%async.

Definition retrieval_message : jsstring :=
  [28961; 27861; 35712; 21462; 22294; 29255; 27284; 26696; 12290; 21407;
   22240; 21487; 33021; 26159; 65306; 49; 46; 32; 36899; 32080; 28961; 25928;
   32; 50; 46; 32; 27284; 26696; 27402; 38480; 26410; 20844; 38283; 32; 51;
   46; 32; 36328; 32178; 22495; 23384; 21462; 32; 40; 67; 79; 82; 83; 41; 32;
   34987; 25298; 32085; 12290].

Definition fileToGenerativePart (url : jsstring) : async (option jsstring) :=
  try_catch
    (let* response := await (fetch url) in
     if negb (Response.ok response)
     then throw (Error (lit "Direct fetch failed: " ++ Response.statusText response))
     else
       let* blob := await (Response_blob response) in
       blobToBase64 blob)%async
    (fun error =>
       (let* _ := console_log warn
                    "Direct fetch failed (likely CORS), attempting via CORS proxy..."
                    error in
        try_catch
          (let* proxyUrl :=
             Return (let! encoded := encodeURIComponent url in
                     Ok (lit "https://corsproxy.io/?" ++ encoded))%outcome in
           let* proxyResponse := await (fetch proxyUrl) in
           if negb (Response.ok proxyResponse)
           then throw (Error (lit "Proxy fetch failed: "
                                ++ Response.statusText proxyResponse))
           else
             let* proxyBlob := await (Response_blob proxyResponse) in
             blobToBase64 proxyBlob)
          (fun proxyError =>
             let* _ := console_log error_ "Proxy fetch failed:" proxyError in
             throw (Error retrieval_message)))%async).

Section Analysis.

Variable JSON_parse : jsstring -> outcome value.
Variable Number_toString : spec_float -> jsstring.

(** What [analyzeJapaneseImage] does with the text of the response. *)
Definition analysis_of_text (text : jsstring) : outcome AnalysisResult :=
  (let! parsed := JSON_parse text in
   let! vocab := Get parsed (lit "vocab") in
   let! cleanVocab := cleanVocab_of vocab in
   let! sentence := Get parsed (lit "sentence") in
   let! reading := Get parsed (lit "reading") in
   let! sentenceText := ToString Number_toString sentence in
   Ok (AnalysisResult.mk cleanVocab sentence (cleanVocab ++ [10] ++ sentenceText)
         reading))%outcome.

Definition analyzeJapaneseImage (imageUrl : jsstring) : async AnalysisResult :=
  try_catch
    (let* base64Data := fileToGenerativePart imageUrl in
     let* response :=
       await (generateContent (AnalyzeImage "gemini-2.5-flash" "image/jpeg" base64Data)) in
     match GenerateContentResponse.text response with
     | Some (c :: text) => Return (analysis_of_text (c :: text))
     | _ => throw (Error (lit "No response text generated"))
     end)%async
    (fun error =>
       (let* _ := console_log error_ "Error analyzing image:" error in
        throw error)%async).

End Analysis.

Definition fetchTTSBase64 (text : jsstring) : async jsstring :=
  (let* response :=
     await (generateContent
              (SynthesizeSpeech "gemini-2.5-flash-preview-tts" "Kore" text)) in
   match GenerateContentResponse.audioData response with
   | Some (c :: base64) => Return (Ok (c :: base64))
   | _ => throw (Error (lit "No audio data returned from API"))
   end)%async.

Definition generatePronunciation (text : jsstring) : async AudioBuffer :=
  try_catch
    (let* base64Audio := fetchTTSBase64 text in
     Return (decodePCM base64Audio))%async
    (fun error =>
       (let* _ := console_log error_ "Error generating speech:" error in
        throw error)%async).

(** Steps 3 to 6 of [generateSequentialPronunciation]. [channelData] is the
    storage of [combinedBuffer], so the two [set] calls write into the
    buffer that is returned. The audio context is only used to create
    buffers and is not modelled. *)
Definition sequence_buffers (base64Vocab base64Sentence : jsstring)
  : outcome AudioBuffer :=
  (let! buf1 := decodePCM base64Vocab in
   let! buf2 := decodePCM base64Sentence in
   let pauseDuration := 3%nat in
   let pauseSamples := (pauseDuration * Z.to_nat 24000)%nat in
   let totalLength :=
     (AudioBuffer.length buf1 + pauseSamples + AudioBuffer.length buf2)%nat in
   let! combinedBuffer := createBuffer 1 totalLength 24000 in
   let! channelData := getChannelData combinedBuffer 0 in
   let! source1 := getChannelData buf1 0 in
   let! channelData := TypedArray_set channelData source1 0 in
   let! source2 := getChannelData buf2 0 in
   let! channelData :=
     TypedArray_set channelData source2 (AudioBuffer.length buf1 + pauseSamples) in
   Ok (setChannelData combinedBuffer 0 channelData))%outcome.

Definition generateSequentialPronunciation (env : environment) (schedule : list nat)
  (vocab sentence : jsstring) : list event * option (outcome AudioBuffer) :=
  let (trace, settled) :=
    Promise_all env schedule (fetchTTSBase64 vocab) (fetchTTSBase64 sentence) in
  match settled with
  | None => (trace, None)
  | Some results =>
      let (trace', o) :=
        run env
          (try_catch
             (Return (let! (base64Vocab, base64Sentence) := results in
                      sequence_buffers base64Vocab base64Sentence)%outcome)
             (fun error =>
                (let* _ := console_log error_ "Error generating sequential speech:"
                             error in
                 throw error)%async)) in
      (trace ++ trace', Some o)
  end.


(** ** Reference definitions for the decoder *)

(** The [i]-th little-endian signed 16-bit integer of a byte sequence. *)
Definition int16_le (bytes : list Z) (i : nat) : Z :=
  let u := default 0 (bytes !! (2 * i)%nat) + 256 * default 0 (bytes !! (2 * i + 1)%nat) in
  if u <? 32768 then u else u - 65536.

Definition is_byte (b : Z) : Prop := 0 <= b < 256.

(** [pcm_sample v] is the binary32 number whose value is [v / 32768]. *)
Definition exact_sample (v : Z) : bool :=
  match pcm_sample v with
  | S754_zero _ => v =? 0
  | S754_finite s m (Zneg p) => cond_Zopp s (Zpos m) * 32768 =? v * Zpos (2 ^ p)
  | _ => false
  end.

Definition int16_range : list Z :=
  map (fun k => Z.of_nat k - 32768) (seq 0 (Z.to_nat 65536)).

(** What decoding promises for a payload of [2 * n] bytes: [n] samples in
    order, sample [i] being the [i]-th 16-bit integer over 32768, within
    [-1, 1]. *)
Definition decodes_to_samples (base64Data bytes : jsstring) (n : nat) : Prop :=
  exists samples : list spec_float,
    decodePCM base64Data = Ok (AudioBuffer.mk 1 n 24000 [samples]) /\
    length samples = n /\
    forall i : nat, (i < n)%nat ->
      exists (x : spec_float) (q : Q),
        samples !! i = Some x /\ Number.toQ x = Some q /\
        (q == int16_le bytes i # 32768)%Q /\ (-1 <= q)%Q /\ (q <= 1)%Q.

(** The layout of a sequenced channel: the first clip, a gap of silence,
    the second clip. *)
Definition sequenced (samples1 samples2 out : list spec_float) (gap : nat) : Prop :=
  length out = (length samples1 + gap + length samples2)%nat /\
  (forall i : nat, (i < length samples1)%nat -> out !! i = samples1 !! i) /\
  (forall i : nat, (length samples1 <= i < length samples1 + gap)%nat ->
     out !! i = Some (S754_zero false)) /\
  (forall i : nat, (i < length samples2)%nat ->
     out !! (length samples1 + gap + i)%nat = samples2 !! i).

(** An outbound request to the remote model in a trace. *)
Definition is_request (e : event) : bool :=
  match e with
  | @Called _ (generateContent _) => true
  | _ => false
  end.

(** An asynchronous function that awaits at most one call. *)
Definition single_await {A} (p : async A) : Prop :=
  match p with
  | Return _ => True
  | Await c k => forall r, exists o, k r = Return o
  end.

(** The call [fetchTTSBase64 text] awaits. *)
Abbreviation speech_request text :=
  (generateContent (SynthesizeSpeech "gemini-2.5-flash-preview-tts" "Kore" text)).

(** ** Reference definitions for the resource fetcher *)

(** One transport path read off the environment: fetch [target], require
    an OK status, take the body as a blob and read its base64 content. *)
Definition retrieve (env : environment) (target failure : jsstring)
  : outcome (option jsstring) :=
  (let! response := env _ (fetch target) in
   if negb (Response.ok response)
   then Throw (Error (failure ++ Response.statusText response))
   else
     let! blob := env _ (Response_blob response) in
     let! base64String := env _ (FileReader_readAsDataURL blob) in
     Ok (split_comma base64String !! 1%nat))%outcome.

Definition retrieve_direct (env : environment) (url : jsstring)
  : outcome (option jsstring) :=
  retrieve env url (lit "Direct fetch failed: ").

Definition retrieve_relay (env : environment) (url : jsstring)
  : outcome (option jsstring) :=
  (let! encoded := encodeURIComponent url in
   retrieve env (lit "https://corsproxy.io/?" ++ encoded) (lit "Proxy fetch failed: "))%outcome.

(** The call [analyzeJapaneseImage] awaits once it holds the image data. *)
Abbreviation analysis_request data :=
  (generateContent (AnalyzeImage "gemini-2.5-flash" "image/jpeg" data)).

(** What the analysis makes of the model's answer to a request. *)
Definition analysis_of_response (JSON_parse : jsstring -> outcome value)
  (Number_toString : spec_float -> jsstring)
  (answer : outcome GenerateContentResponse) : outcome AnalysisResult :=
  (let! response := answer in
   match GenerateContentResponse.text response with
   | Some (c :: text) => analysis_of_text JSON_parse Number_toString (c :: text)
   | _ => Throw (Error (lit "No response text generated"))
   end)%outcome.

(** ** A sample environment *)

(** U+5358 U+8A9E, and U+4F8B U+6587 U+3067 U+3059 U+3002. *)
Definition tango : jsstring := [21336; 35486].
Definition reibun : jsstring := [20363; 25991; 12391; 12377; 12290].

Definition quoted (s : string) : jsstring := [34] ++ lit s ++ [34].

Definition sample_text : jsstring :=
  lit "{" ++ quoted "vocab" ++ lit ":" ++ quoted "\u2460\u5358\u8a9e" ++ lit ","
  ++ quoted "sentence" ++ lit ":" ++ quoted "\u4f8b\u6587\u3067\u3059\u3002" ++ lit ","
  ++ quoted "reading" ++ lit ":" ++ quoted "\u305f\u3093\u3054" ++ lit "}".

(** A parser that knows the sample text only. *)
Definition sample_JSON_parse (text : jsstring) : outcome value :=
  if bool_decide (text = sample_text)
  then Ok (VObject [(lit "vocab", VString (9312 :: tango));
                    (lit "sentence", VString reibun);
                    (lit "reading", VString [12383; 12435; 12372])])
  else Throw SyntaxError.

Definition sample_Number_toString (x : spec_float) : jsstring := lit "NaN".

Definition sample_url : jsstring := lit "https://example.org/card.jpg".

(** The direct fetch of the sample URL meets a network error; every other
    fetch, the relay's included, answers with status [relay_ok]. The model
    answers an analysis with the sample text and a synthesis with a clip of
    five samples for [tango] and of two samples for any other text. *)
Definition sample_env (relay_ok : bool) : environment :=
  fun T c =>
    match c in call T return outcome T with
    | fetch url =>
        if bool_decide (url = sample_url) then Throw (Reason 0)
        else Ok (Response.mk relay_ok (lit (if relay_ok then "OK" else "Forbidden")) 1)
    | Response_blob response => Ok (BlobHandle (Response.body response))
    | FileReader_readAsDataURL _ => Ok (lit "data:image/jpeg;base64,/9j/4AAQ")
    | generateContent (AnalyzeImage _ _ _) =>
        Ok (GenerateContentResponse.mk (Some sample_text) None)
    | generateContent (SynthesizeSpeech _ _ text) =>
        Ok (GenerateContentResponse.mk None
              (Some (if bool_decide (text = tango) then lit "AAABAP9/AID//w=="
                     else lit "AQACAA==")))
    | console _ _ _ => Ok tt
    end.

(** ** Reference definitions for further properties *)

(** The shape every audio buffer has: as many channels as it says, each
    holding as many samples as it says, and at least one sample. *)
Definition well_formed_buffer (buffer : AudioBuffer) : Prop :=
  AudioBuffer.numberOfChannels buffer = Z.of_nat (length (AudioBuffer.channels buffer)) /\
  Forall (fun data => length data = AudioBuffer.length buffer)
    (AudioBuffer.channels buffer) /\
  (1 <= AudioBuffer.length buffer)%nat.

(** A started function that will return [a]: it has returned it already,
    or the call it awaits is answered so that it does. *)
Definition settles_to {A} (env : environment) (p : async A) (a : A) : Prop :=
  match p with
  | Return o => o = Ok a
  | Await c k => k (env _ c) = Return (Ok a)
  end.

(** An environment in which a synthesis request can be rejected: the one
    for [tango] unless [vocab_ok], any other unless [sentence_ok]. *)
Definition sample_speech_env (vocab_ok sentence_ok : bool) : environment :=
  fun T c =>
    match c in call T return outcome T with
    | generateContent (SynthesizeSpeech model voiceName text) =>
        if bool_decide (text = tango)
        then (if vocab_ok
              then sample_env true _ (generateContent (SynthesizeSpeech model voiceName text))
              else Throw (Reason 1))
        else (if sentence_ok
              then sample_env true _ (generateContent (SynthesizeSpeech model voiceName text))
              else Throw (Reason 2))
    | c' => sample_env true _ c'
    end.

(** What a trace shows of the outside world: the URLs fetched, the
    requests sent to the model, and the console output, each in order. *)
Definition fetched_url (e : event) : option jsstring :=
  match e with
  | @Called _ (fetch url) => Some url
  | _ => None
  end.

Definition fetched_urls (trace : list event) : list jsstring :=
  omap fetched_url trace.

Definition model_request (e : event) : option GenerateContentParameters :=
  match e with
  | @Called _ (generateContent params) => Some params
  | _ => None
  end.

Definition model_requests (trace : list event) : list GenerateContentParameters :=
  omap model_request trace.

Definition console_entry (e : event) : option (console_method * string * error) :=
  match e with
  | @Called _ (console method message err) => Some (method, message, err)
  | _ => None
  end.

Definition console_output (trace : list event) : list (console_method * string * error) :=
  omap console_entry trace.

Definition relay_url (encoded : jsstring) : jsstring :=
  lit "https://corsproxy.io/?" ++ encoded.

(** A UTF-16 code unit. *)
Definition is_code_unit (c : Z) : Prop := 0 <= c < 65536.

(** What may appear in an encoded URI component: an unreserved character
    or the percent sign of an escape (whose two hexadecimal digits are
    unreserved characters themselves). *)
Definition is_component_char (c : Z) : Prop := is_uri_unreserved c = true \/ c = 37.

(** ** The caller's error display ([src/App.tsx], the [catch] block of
    [handleIdentifyAndRead]) *)

Fixpoint starts_with (needle s : jsstring) : bool :=
  match needle, s with
  | [], _ => true
  | n :: needle', c :: s' => (n =? c) && starts_with needle' s'
  | _ :: _, [] => false
  end.

(** [haystack.includes(needle)]. *)
Fixpoint includes (haystack needle : jsstring) : bool :=
  starts_with needle haystack
  || match haystack with
     | [] => false
     | _ :: rest => includes rest needle
     end.

(** [err.message]: the message of an [Error] the service made; for any
    other thrown value, what the platform gives ([None] for [undefined]). *)
Definition message_of (platform_message : error -> option jsstring) (err : error)
  : option jsstring :=
  match err with
  | Error message => Some message
  | _ => platform_message err
  end.

Definition generic_failure : jsstring :=
  [36776; 35672; 22833; 25943; 65292; 35531; 30906; 35469; 22294; 29255; 36899;
   32080; 21487; 20844; 38283; 23384; 21462; 32; 40; 67; 79; 82; 83; 41; 65292;
   25110; 27298; 26597; 32178; 36335; 36899; 32218; 12290].

(** The text [setError] receives:
    [const msg = err.message || ""; msg.includes(...) ? msg : <generic>]. *)
Definition failure_shown (platform_message : error -> option jsstring) (err : error)
  : jsstring :=
  let msg := match message_of platform_message err with
             | Some (c :: message) => c :: message
             | _ => []
             end in
  if includes msg [28961; 27861; 35712; 21462] then msg else generic_failure.

(** * Properties *)

Lemma Ok_inj {A : Type} (a b : A) : Ok a = Ok b -> a = b.
Proof. intros H. now inversion H. Qed.

(** ** Loops that fill an array *)

Lemma for_range_S {S : Type} (n : nat) (body : nat -> S -> S) (s : S) :
  for_range (Datatypes.S n) body s = body n (for_range n body s).
Proof.
  unfold for_range. rewrite seq_S, foldl_app. reflexivity.
Qed.

Lemma for_range_fill {A : Type} (g : nat -> A) (init : list A) (n : nat) :
  (n <= length init)%nat ->
  for_range n (fun i acc => <[i := g i]> acc) init = map g (seq 0 n) ++ drop n init.
Proof.
  induction n as [|n IH]; intros Hn.
  - unfold for_range. simpl. now rewrite drop_0.
  - rewrite for_range_S, IH by lia.
    rewrite seq_S, map_app. simpl.
    destruct (lookup_lt_is_Some_2 init n ltac:(lia)) as [x Hx].
    rewrite (drop_S _ _ _ Hx).
    rewrite insert_app_r_alt by (rewrite length_map, length_seq; lia).
    rewrite length_map, length_seq, Nat.sub_diag. simpl.
    now rewrite <- app_assoc.
Qed.

Lemma map_lookup_seq {A B : Type} (f : A -> B) (d : A) (l : list A) :
  map (fun i => f (default d (l !! i))) (seq 0 (length l)) = map f l.
Proof.
  apply list_eq. intros i.
  rewrite !list_lookup_fmap.
  destruct (decide (i < length l)%nat) as [Hi|Hi].
  - rewrite lookup_seq_lt by lia. simpl.
    destruct (lookup_lt_is_Some_2 l i Hi) as [x Hx]. now rewrite Hx.
  - rewrite lookup_seq_ge by lia. rewrite lookup_ge_None_2 by lia. reflexivity.
Qed.

Lemma for_range_map {A B : Type} (f : A -> B) (d : A) (z : B) (l : list A) :
  for_range (length l) (fun i acc => <[i := f (default d (l !! i))]> acc)
    (replicate (length l) z) = map f l.
Proof.
  rewrite (for_range_fill (fun i => f (default d (l !! i)))) by (rewrite length_replicate; lia).
  rewrite drop_ge by (rewrite length_replicate; lia).
  rewrite app_nil_r. apply map_lookup_seq.
Qed.

(** ** The base64 decoder yields bytes *)

Lemma list_ind4 {A : Type} (P : list A -> Prop) :
  P [] -> (forall a, P [a]) -> (forall a b, P [a; b]) -> (forall a b c, P [a; b; c]) ->
  (forall a b c d l, P l -> P (a :: b :: c :: d :: l)) ->
  forall l, P l.
Proof.
  intros H0 H1 H2 H3 H4. fix IH 1.
  intros [|a [|b [|c [|d l]]]];
    [apply H0 | apply H1 | apply H2 | apply H3 | apply H4, IH].
Qed.

Lemma list_ind2 {A : Type} (P : list A -> Prop) :
  P [] -> (forall a, P [a]) -> (forall a b l, P l -> P (a :: b :: l)) ->
  forall l, P l.
Proof.
  intros H0 H1 H2. fix IH 1.
  intros [|a [|b l]]; [apply H0 | apply H1 | apply H2, IH].
Qed.

Lemma base64_value_range (c v : Z) : base64_value c = Some v -> 0 <= v < 64.
Proof.
  unfold base64_value. intros H.
  repeat match type of H with
         | (if ?b then _ else _) = _ => destruct b eqn:?
         end; inversion H; subst; lia.
Qed.

Lemma base64_values_range (data : jsstring) (vs : list Z) :
  base64_values data = Some vs -> Forall (fun v => 0 <= v < 64) vs.
Proof.
  revert vs. induction data as [|c data IH]; intros vs H; simpl in H.
  - inversion H. constructor.
  - destruct (base64_value c) as [v|] eqn:Hc; [|discriminate].
    destruct (base64_values data) as [vs'|]; [|discriminate].
    inversion H; subst. constructor; eauto using base64_value_range.
Qed.

Lemma decode_sextets_bytes (vs : list Z) :
  Forall (fun v => 0 <= v < 64) vs -> Forall is_byte (decode_sextets vs).
Proof.
  induction vs as [|a|a b|a b c|a b c d l IH] using list_ind4; intros H; simpl.
  - constructor.
  - constructor.
  - inversion H as [|? ? Ha H']; inversion H' as [|? ? Hb _]; subst.
    repeat constructor; unfold is_byte.
    + apply Z.div_pos; lia.
    + apply Z.div_lt_upper_bound; lia.
  - inversion H as [|? ? Ha H']; inversion H' as [|? ? Hb H'']; inversion H'' as [|? ? Hc _]; subst.
    assert (0 <= ((a * 64 + b) * 64 + c) / 4 < 65536).
    { split; [apply Z.div_pos; lia | apply Z.div_lt_upper_bound; lia]. }
    repeat constructor; unfold is_byte.
    + apply Z.div_pos; lia.
    + apply Z.div_lt_upper_bound; lia.
    + apply Z.mod_pos_bound; lia.
    + apply Z.mod_pos_bound; lia.
  - inversion H as [|? ? Ha H']; inversion H' as [|? ? Hb H''];
      inversion H'' as [|? ? Hc H'3]; inversion H'3 as [|? ? Hd H'4]; subst.
    repeat constructor; unfold is_byte; auto.
    + apply Z.div_pos; lia.
    + apply Z.div_lt_upper_bound; lia.
    + apply Z.mod_pos_bound; lia.
    + apply Z.mod_pos_bound; lia.
    + apply Z.mod_pos_bound; lia.
    + apply Z.mod_pos_bound; lia.
Qed.

Lemma atob_bytes (data bytes : jsstring) :
  atob data = Ok bytes -> Forall is_byte bytes.
Proof.
  unfold atob. intros H.
  destruct (_ =? 1); [discriminate|].
  destruct (base64_values _) as [vs|] eqn:Hvs; [|discriminate].
  inversion H; subst.
  eauto using decode_sextets_bytes, base64_values_range.
Qed.

Lemma map_ToUint8_bytes (bytes : list Z) :
  Forall is_byte bytes -> map ToUint8 bytes = bytes.
Proof.
  induction 1 as [|b bytes Hb _ IH]; simpl; [reflexivity|].
  rewrite IH. unfold ToUint8. rewrite Z.mod_small by exact Hb. reflexivity.
Qed.

(** ** The 16-bit view *)

Lemma lor_shiftl_8 (lo hi : Z) :
  0 <= lo < 256 -> 0 <= hi -> Z.lor lo (Z.shiftl hi 8) = lo + 256 * hi.
Proof.
  intros Hlo Hhi.
  assert (Hdisj : Z.land lo (Z.shiftl hi 8) = 0).
  { apply Z.bits_inj'. intros n Hn.
    rewrite Z.land_spec, Z.bits_0.
    destruct (Z.lt_ge_cases n 8) as [Hlt|Hge].
    - rewrite (Z.shiftl_spec_low hi 8 n) by lia. apply andb_false_r.
    - destruct (Z.eq_dec lo 0) as [->|Hne].
      + now rewrite Z.bits_0.
      + rewrite (Z.bits_above_log2 lo n); [reflexivity | lia |].
        assert (Z.log2 lo < 8) by (apply Z.log2_lt_pow2; lia). lia. }
  rewrite <- Z.lxor_lor by exact Hdisj.
  rewrite <- Z.add_nocarry_lxor by exact Hdisj.
  rewrite Z.shiftl_mul_pow2 by lia. lia.
Qed.

Lemma length_int16_elements (bytes : list Z) :
  length (int16_elements bytes) = (length bytes / 2)%nat.
Proof.
  induction bytes as [|a|a b l IH] using list_ind2; try reflexivity.
  cbn [int16_elements length]. rewrite IH.
  change (S (S (length l))) with (1 * 2 + length l)%nat.
  rewrite Nat.div_add_l by lia. lia.
Qed.

Lemma lookup_int16_elements (bytes : list Z) (i : nat) :
  Forall is_byte bytes -> (2 * i + 1 < length bytes)%nat ->
  int16_elements bytes !! i = Some (int16_le bytes i).
Proof.
  revert i. induction bytes as [|a|a b l IH] using list_ind2; intros i Hb Hi.
  - simpl in Hi. lia.
  - simpl in Hi. lia.
  - inversion Hb as [|? ? Ha Hb']; inversion Hb' as [|? ? Hb0 Hl]; subst.
    destruct i as [|i].
    + cbn [int16_elements]. simpl. f_equal.
      unfold is_byte in *.
      rewrite lor_shiftl_8 by lia. unfold ToInt16, int16_le. simpl.
      rewrite Z.mod_small by lia. reflexivity.
    + cbn [int16_elements]. simpl lookup at 1.
      rewrite IH; [| exact Hl | simpl in Hi; lia].
      unfold int16_le.
      replace (2 * S i)%nat with (S (S (2 * i))) by lia.
      replace (S (S (2 * i)) + 1)%nat with (S (S (2 * i + 1))) by lia.
      reflexivity.
Qed.

Lemma int16_le_range (bytes : list Z) (i : nat) :
  Forall is_byte bytes -> -32768 <= int16_le bytes i <= 32767.
Proof.
  intros Hb. unfold int16_le.
  assert (Hd : forall j, 0 <= default 0 (bytes !! j) < 256).
  { intros j. destruct (bytes !! j) as [x|] eqn:Hx; simpl; [|lia].
    rewrite Forall_forall in Hb. apply Hb.
    eapply list_elem_of_lookup_2; eauto. }
  pose proof (Hd (2 * i)%nat). pose proof (Hd (2 * i + 1)%nat).
  destruct (_ <? 32768) eqn:E; lia.
Qed.

(** ** Samples are exact *)

Lemma div_eucl_exact (a b q : Z) : 0 < b -> a = q * b -> Z.div_eucl a b = (q, 0).
Proof.
  intros Hb ->.
  assert (H : Z.div_eucl (q * b) b = ((q * b) / b, (q * b) mod b)).
  { unfold Z.div, Z.modulo. now destruct (Z.div_eucl (q * b) b). }
  rewrite H, Z.div_mul, Z.mod_mul by lia. reflexivity.
Qed.


(** *** Rounding without loss

    Facts about the rounding functions of [SpecFloat] on mantissas whose
    low bits are zero. *)

Section Rounding.

Variables prec emax : Z.

Lemma iter_pos_iter {A : Type} (f : A -> A) (n : positive) (x : A) :
  SpecFloat.iter_pos f n x = Pos.iter f x n.
Proof.
  revert x. induction n as [n IH|n IH|]; intros x; cbn [SpecFloat.iter_pos Pos.iter].
  - rewrite !IH. now rewrite <- !Pos.iter_swap.
  - now rewrite !IH.
  - reflexivity.
Qed.

Lemma digits2_pos_iter_xO (p k : positive) :
  digits2_pos (Pos.iter xO p k) = (digits2_pos p + k)%positive.
Proof.
  induction k as [|k IH] using Pos.peano_ind.
  - cbn. now rewrite Pos.add_1_r.
  - rewrite Pos.iter_succ. cbn [digits2_pos]. rewrite IH. lia.
Qed.

Lemma shr_iter_xO (m k : positive) :
  SpecFloat.iter_pos shr_1 k (Build_shr_record (Zpos (Pos.iter xO m k)) false false)
  = Build_shr_record (Zpos m) false false.
Proof.
  rewrite iter_pos_iter.
  induction k as [|k IH] using Pos.peano_ind.
  - reflexivity.
  - rewrite Pos.iter_succ_r, Pos.iter_succ. cbn [shr_1 orb]. exact IH.
Qed.

(** A mantissa that is already canonical is left as it is. *)
Lemma binary_round_aux_canonical (s : bool) (m : positive) (e : Z) :
  bounded prec emax m e = true ->
  binary_round_aux prec emax s (Zpos m) e loc_Exact = S754_finite s m e.
Proof.
  unfold bounded, canonical_mantissa. intros H.
  apply andb_prop in H. destruct H as [Hc Hb]. apply Z.eqb_eq in Hc.
  unfold binary_round_aux, shr_fexp. cbn [Zdigits2 shr_record_of_loc].
  rewrite Hc, Z.sub_diag. cbn [shr shr_m loc_of_shr_record round_nearest_even Zdigits2].
  rewrite Hc, Z.sub_diag. cbn [shr shr_m]. now rewrite Hb.
Qed.

(** Trailing zero bits are shifted out without rounding. *)
Lemma binary_round_aux_shift (s : bool) (m k : positive) (e : Z) :
  fexp prec emax (Zpos (digits2_pos m + k) + e) = e + Zpos k ->
  e + Zpos k <= emax - prec ->
  binary_round_aux prec emax s (Zpos (Pos.iter xO m k)) e loc_Exact
  = S754_finite s m (e + Zpos k).
Proof.
  intros Hf Hb.
  unfold binary_round_aux, shr_fexp. cbn [Zdigits2 shr_record_of_loc].
  rewrite digits2_pos_iter_xO, Hf.
  replace (e + Zpos k - e) with (Zpos k) by lia.
  cbn [shr]. rewrite shr_iter_xO.
  cbn [shr_m loc_of_shr_record round_nearest_even Zdigits2 shr_record_of_loc].
  replace (Zpos (digits2_pos m) + (e + Zpos k)) with (Zpos (digits2_pos m + k) + e) by lia.
  rewrite Hf, Z.sub_diag. cbn [shr shr_m].
  apply Z.leb_le in Hb. now rewrite Hb.
Qed.

(** Rounding an integer mantissa that needs [k] more bits. *)
Lemma binary_round_extend (s : bool) (m k : positive) (e : Z) :
  fexp prec emax (Zpos (digits2_pos m) + e) = e - Zpos k ->
  e - Zpos k <= emax - prec ->
  binary_round prec emax s m e = S754_finite s (Pos.iter xO m k) (e - Zpos k).
Proof.
  intros Hf Hb. unfold binary_round, shl_align. rewrite Hf.
  replace (e - Zpos k - e) with (Zneg k) by lia.
  apply binary_round_aux_canonical.
  unfold bounded, canonical_mantissa. rewrite digits2_pos_iter_xO.
  replace (Zpos (digits2_pos m + k) + (e - Zpos k)) with (Zpos (digits2_pos m) + e) by lia.
  rewrite Hf, Z.eqb_refl. now apply Z.leb_le.
Qed.

End Rounding.

Lemma div_by_32768 (s : bool) (m : positive) (e : Z) :
  digits2_pos m = 53%positive -> -1000 <= e <= 900 ->
  SFdiv 53 1024 (S754_finite s m e) (S754_finite false 4503599627370496 (-37))
  = S754_finite s m (e - 15).
Proof.
  intros Hd He. unfold SFdiv, SFdiv_core_binary. cbn [Zdigits2]. rewrite Hd.
  change (Zpos (digits2_pos 4503599627370496)) with 53.
  assert (Hf : fexp 53 1024 (53 + e - (53 + -37)) = e - 16).
  { unfold fexp, emin. lia. }
  rewrite Hf.
  replace (Z.min (e - 16) (e - -37)) with (e - 16) by lia.
  replace (e - -37 - (e - 16)) with 53 by lia.
  rewrite (div_eucl_exact (Z.shiftl (Zpos m) 53) 4503599627370496 (Zpos (Pos.iter xO m 1)));
    [| lia | rewrite Z.shiftl_mul_pow2 by lia; cbn [Pos.iter]; lia].
  change (new_location 4503599627370496 0) with loc_Exact.
  rewrite xorb_false_r.
  rewrite binary_round_aux_shift.
  - f_equal. lia.
  - rewrite Hd. unfold fexp, emin. lia.
  - lia.
Qed.

Lemma Zpos_iter_xO (p k : positive) : Zpos (Pos.iter xO p k) = Zpos p * 2 ^ Zpos k.
Proof.
  induction k as [|k IH] using Pos.peano_ind.
  - cbn [Pos.iter]. lia.
  - rewrite Pos.iter_succ, Pos2Z.inj_xO, IH, Pos2Z.inj_succ, Z.pow_succ_r by lia. lia.
Qed.

Lemma digits2_pos_bound (p : positive) :
  Zpos p < 65536 -> (digits2_pos p <= 16)%positive.
Proof.
  intros Hp.
  assert (H : forall q, 2 ^ Zpos (digits2_pos q) <= 2 * Zpos q).
  { induction q as [q IH|q IH|]; cbn [digits2_pos].
    - rewrite Pos2Z.inj_succ, Z.pow_succ_r by lia. lia.
    - rewrite Pos2Z.inj_succ, Z.pow_succ_r by lia. lia.
    - cbn. lia. }
  specialize (H p).
  destruct (Pos.leb_spec (digits2_pos p) 16) as [Hle|Hgt]; [exact Hle|].
  assert (2 ^ 17 <= 2 ^ Zpos (digits2_pos p)) by (apply Z.pow_le_mono_r; lia).
  lia.
Qed.

(** The sample of a nonzero 16-bit integer: its bits, left-aligned in a
    24-bit mantissa. *)
Lemma pcm_sample_nonzero (s : bool) (p : positive) :
  (digits2_pos p <= 16)%positive ->
  pcm_sample (cond_Zopp s (Zpos p))
  = S754_finite s (Pos.iter xO p (24 - digits2_pos p)) (Zneg (39 - digits2_pos p)).
Proof.
  intros Hd. unfold pcm_sample.
  change (Number.of_Z 32768) with (S754_finite false 4503599627370496 (-37)).
  assert (Hof : Number.of_Z (cond_Zopp s (Zpos p))
                = S754_finite s (Pos.iter xO p (53 - digits2_pos p))
                    (0 - Zpos (53 - digits2_pos p))).
  { unfold Number.of_Z, binary_normalize.
    replace (match cond_Zopp s (Zpos p) with
             | 0 => S754_zero false
             | Zpos m => binary_round Number.prec Number.emax false m 0
             | Zneg m => binary_round Number.prec Number.emax true m 0
             end) with (binary_round Number.prec Number.emax s p 0)
      by (now destruct s).
    apply binary_round_extend; unfold fexp, emin, Number.prec, Number.emax; lia. }
  rewrite Hof. unfold Number.div, Number.prec, Number.emax.
  rewrite div_by_32768 by (rewrite ?digits2_pos_iter_xO; lia).
  unfold Number.fround, binary_round, shl_align.
  rewrite digits2_pos_iter_xO.
  set (e := 0 - Zpos (53 - digits2_pos p) - 15).
  assert (Hf : fexp 24 128 (Zpos (digits2_pos p + (53 - digits2_pos p)) + e) = e + 29).
  { unfold fexp, emin, e. lia. }
  rewrite Hf. replace (e + 29 - e) with 29 by lia. cbn match.
  replace (53 - digits2_pos p)%positive with (29 + (24 - digits2_pos p))%positive by lia.
  rewrite Pos.iter_add.
  rewrite binary_round_aux_shift.
  - f_equal. unfold e. lia.
  - rewrite digits2_pos_iter_xO. unfold fexp, emin, e. lia.
  - unfold e. lia.
Qed.

Lemma exact_sample_int16 (v : Z) : -32768 <= v <= 32767 -> exact_sample v = true.
Proof.
  intros Hv.
  assert (H : forall (s : bool) (p : positive),
             Zpos p < 65536 -> exact_sample (cond_Zopp s (Zpos p)) = true).
  { intros s p Hp. pose proof (digits2_pos_bound p Hp) as Hd.
    unfold exact_sample. rewrite (pcm_sample_nonzero s p Hd).
    apply Z.eqb_eq.
    rewrite Pos2Z.inj_pow, Zpos_iter_xO.
    replace (Zpos (39 - digits2_pos p)) with (Zpos (24 - digits2_pos p) + 15) by lia.
    rewrite Z.pow_add_r by lia.
    destruct s; cbn [cond_Zopp]; lia. }
  destruct v as [|p|p].
  - reflexivity.
  - apply (H false p). lia.
  - apply (H true p). lia.
Qed.

Lemma int16_range_bounds (v : Z) : In v int16_range -> -32768 <= v <= 32767.
Proof.
  unfold int16_range.
  assert (Hn : Z.of_nat (Z.to_nat 65536) = 65536) by (apply Z2Nat.id; lia).
  revert Hn. generalize (Z.to_nat 65536). intros n Hn Hv.
  apply in_map_iff in Hv.
  destruct Hv as (k & <- & Hk). apply in_seq in Hk. lia.
Qed.

Lemma exact_sample_int16_range : forallb exact_sample int16_range = true.
Proof.
  apply forallb_forall. intros v Hv.
  apply exact_sample_int16, int16_range_bounds, Hv.
Qed.

Lemma pcm_sample_exact (v : Z) :
  -32768 <= v <= 32767 ->
  exists q, Number.toQ (pcm_sample v) = Some q /\ (q == v # 32768)%Q.
Proof.
  intros Hv. pose proof (exact_sample_int16 v Hv) as H.
  unfold exact_sample in H.
  destruct (pcm_sample v) as [s| | |s m [|p|p]]; try discriminate.
  - apply Z.eqb_eq in H. subst v. exists (0 # 1)%Q. split; reflexivity.
  - apply Z.eqb_eq in H. eexists. split; [reflexivity|].
    unfold Qeq. simpl Qnum. simpl Qden. exact H.
Qed.

Lemma int16_fraction_bounds (v : Z) (q : Q) :
  -32768 <= v <= 32767 -> (q == v # 32768)%Q -> (-1 <= q)%Q /\ (q <= 1)%Q.
Proof.
  intros Hv Hq. rewrite Hq. unfold Qle. simpl. lia.
Qed.

(** ** What [decodePCM] computes *)

Lemma copy_into_zeros (source : list spec_float) :
  list_inserts 0 source (replicate (length source) Number.zero) = source.
Proof.
  rewrite <- (app_nil_r (replicate _ _)).
  rewrite list_inserts_0_r by (now rewrite length_replicate).
  apply app_nil_r.
Qed.

Lemma decodePCM_eq (base64Data : jsstring) :
  decodePCM base64Data =
  (let! bytes := atob base64Data in
   if Nat.even (length bytes) then
     if (length bytes / 2 =? 0)%nat then Throw (DOMException "NotSupportedError")
     else Ok (AudioBuffer.mk 1 (length bytes / 2) 24000
                [map pcm_sample (int16_elements (map ToUint8 bytes))])
   else Throw RangeError)%outcome.
Proof.
  unfold decodePCM. destruct (atob base64Data) as [binaryString|e]; [|reflexivity].
  cbn [obind]. unfold charCodeAt.
  rewrite (for_range_map ToUint8 0 0 binaryString).
  unfold Int16Array_of_buffer. rewrite length_map.
  destruct (Nat.even (length binaryString)); [|reflexivity].
  cbn [obind].
  rewrite (for_range_map pcm_sample 0 Number.zero).
  assert (Hs : length (map pcm_sample (int16_elements (map ToUint8 binaryString)))
               = (length binaryString / 2)%nat).
  { now rewrite length_map, length_int16_elements, length_map. }
  remember (map pcm_sample (int16_elements (map ToUint8 binaryString))) as samples.
  rewrite Hs. remember (length binaryString / 2)%nat as n.
  unfold createBuffer.
  destruct (n =? 0)%nat; [reflexivity|].
  cbn [obind orb Z.leb Z.compare].
  unfold copyToChannel, setChannelData.
  change (Z.to_nat 1) with 1%nat. cbn.
  rewrite <- Hs, copy_into_zeros. reflexivity.
Qed.

Lemma even_length_half (bytes : list Z) (n : nat) :
  length bytes = (2 * n)%nat ->
  Nat.even (length bytes) = true /\ (length bytes / 2)%nat = n.
Proof.
  intros H. rewrite H. split.
  - rewrite Nat.even_mul. reflexivity.
  - rewrite Nat.mul_comm. apply Nat.div_mul. lia.
Qed.

(** C1 (as amended): for every payload that decodes to a byte buffer of
    even length [2 * n] with [n >= 1], [decodePCM] returns a mono buffer at
    24000 Hz with exactly [n] samples; sample [i] is the binary32 number
    whose value is exactly the [i]-th little-endian signed 16-bit integer of
    the buffer divided by 32768, and lies in [-1, 1]. *)
Theorem decodePCM_samples (base64Data bytes : jsstring) (n : nat) :
  atob base64Data = Ok bytes ->
  length bytes = (2 * n)%nat ->
  (1 <= n)%nat ->
  decodes_to_samples base64Data bytes n.
Proof.
  intros Hatob Hlen Hn.
  pose proof (atob_bytes _ _ Hatob) as Hbytes.
  destruct (even_length_half _ _ Hlen) as [Heven Hhalf].
  exists (map pcm_sample (int16_elements bytes)). split; [|split].
  - rewrite decodePCM_eq, Hatob. cbn [obind].
    rewrite Heven, Hhalf, (map_ToUint8_bytes _ Hbytes).
    destruct (Nat.eqb_spec n 0); [lia | reflexivity].
  - now rewrite length_map, length_int16_elements.
  - intros i Hi.
    pose proof (int16_le_range bytes i Hbytes) as Hrange.
    destruct (pcm_sample_exact _ Hrange) as (q & Hq & Hexact).
    exists (pcm_sample (int16_le bytes i)), q.
    split; [|split; [exact Hq | split; [exact Hexact |]]].
    + rewrite list_lookup_fmap, lookup_int16_elements by (auto; lia). reflexivity.
    + exact (int16_fraction_bounds _ _ Hrange Hexact).
Qed.

Lemma decodePCM_samples_witness :
  atob (lit "AAABAP9/AID//w==") = Ok [0; 0; 1; 0; 255; 127; 0; 128; 255; 255] /\
  decodes_to_samples (lit "AAABAP9/AID//w==") [0; 0; 1; 0; 255; 127; 0; 128; 255; 255] 5.
Proof.
  split; [reflexivity|].
  apply decodePCM_samples; [reflexivity | reflexivity | lia].
Defined.

(** The empty byte buffer has even length [2 * 0], yet it is not decoded to
    a buffer of zero samples: creating an audio buffer of length zero is
    refused. *)
Lemma decodePCM_empty_buffer_refused :
  ~ (forall (base64Data bytes : jsstring) (n : nat),
        atob base64Data = Ok bytes -> length bytes = (2 * n)%nat ->
        decodes_to_samples base64Data bytes n).
Proof.
  intros H. destruct (H [] [] 0%nat eq_refl eq_refl) as (samples & Hdec & _).
  vm_compute in Hdec. discriminate Hdec.
Qed.

Example decodePCM_empty : decodePCM [] = Throw (DOMException "NotSupportedError").
Proof. reflexivity. Qed.

(** C10: a payload whose decoded byte length is odd makes [decodePCM] throw
    (the 16-bit view of the bytes is refused with a [RangeError]); whenever
    [decodePCM] returns a buffer the payload decoded to an even number of
    bytes and the buffer holds exactly half as many samples. *)
Theorem decodePCM_odd_length_throws (base64Data : jsstring) :
  (forall bytes : jsstring,
      atob base64Data = Ok bytes -> Nat.odd (length bytes) = true ->
      decodePCM base64Data = Throw RangeError) /\
  (forall buffer : AudioBuffer,
      decodePCM base64Data = Ok buffer ->
      exists (bytes : jsstring) (samples : list spec_float),
        atob base64Data = Ok bytes /\ Nat.even (length bytes) = true /\
        AudioBuffer.length buffer = (length bytes / 2)%nat /\
        AudioBuffer.channels buffer = [samples] /\
        length samples = (length bytes / 2)%nat).
Proof.
  rewrite decodePCM_eq. split.
  - intros bytes -> Hodd. cbn [obind].
    rewrite <- Nat.negb_even in Hodd.
    destruct (Nat.even (length bytes)); [discriminate | reflexivity].
  - intros buffer H.
    destruct (atob base64Data) as [bytes|e]; [|discriminate].
    cbn [obind] in H.
    destruct (Nat.even (length bytes)) eqn:Heven; [|discriminate].
    destruct (_ =? 0)%nat; [discriminate|].
    inversion H; subst; clear H.
    exists bytes, (map pcm_sample (int16_elements (map ToUint8 bytes))).
    cbn [AudioBuffer.length AudioBuffer.channels].
    rewrite length_map, length_int16_elements, length_map. auto.
Qed.

Lemma decodePCM_odd_length_throws_witness :
  decodePCM (lit "AAAB") = Throw RangeError /\
  exists (bytes : jsstring) (samples : list spec_float),
    atob (lit "AAABAP9/") = Ok bytes /\ Nat.even (length bytes) = true /\
    3%nat = (length bytes / 2)%nat /\
    [[S754_zero false; S754_finite false 8388608 (-38);
      S754_finite false 16776704 (-24)]] = [samples] /\
    length samples = (length bytes / 2)%nat.
Proof.
  split.
  - exact (proj1 (decodePCM_odd_length_throws (lit "AAAB")) [0; 0; 1] eq_refl eq_refl).
  - exact (proj2 (decodePCM_odd_length_throws (lit "AAABAP9/"))
             (AudioBuffer.mk 1 3 24000
                [[S754_zero false; S754_finite false 8388608 (-38);
                  S754_finite false 16776704 (-24)]]) eq_refl).
Defined.

(** ** Sequencing *)

Lemma decodePCM_shape (base64Data : jsstring) (buffer : AudioBuffer) :
  decodePCM base64Data = Ok buffer ->
  exists samples : list spec_float,
    buffer = AudioBuffer.mk 1 (length samples) 24000 [samples] /\
    (1 <= length samples)%nat.
Proof.
  rewrite decodePCM_eq. intros H.
  destruct (atob base64Data) as [bytes|e]; [|discriminate].
  cbn [obind] in H.
  destruct (Nat.even (length bytes)); [|discriminate].
  destruct (Nat.eqb_spec (length bytes / 2) 0); [discriminate|].
  inversion H; subst; clear H.
  exists (map pcm_sample (int16_elements (map ToUint8 bytes))).
  rewrite length_map, length_int16_elements, length_map. split; [reflexivity | lia].
Qed.

Lemma replicate_add {A : Type} (n m : nat) (x : A) :
  replicate (n + m) x = replicate n x ++ replicate m x.
Proof. induction n; simpl; congruence. Qed.

Lemma set_two_segments (samples1 samples2 : list spec_float) (gap : nat) :
  list_inserts (length samples1 + gap) samples2
    (list_inserts 0 samples1
       (replicate (length samples1 + gap + length samples2) Number.zero))
  = samples1 ++ replicate gap Number.zero ++ samples2.
Proof.
  rewrite <- Nat.add_assoc, replicate_add.
  rewrite list_inserts_0_r by (now rewrite length_replicate).
  rewrite replicate_add, app_assoc.
  replace (length samples1 + gap)%nat
    with (length (samples1 ++ replicate gap Number.zero) + 0)%nat
    by (rewrite length_app, length_replicate; lia).
  rewrite list_inserts_app_r.
  rewrite <- (app_nil_r (replicate (length samples2) _)).
  rewrite list_inserts_0_r by (now rewrite length_replicate).
  now rewrite app_nil_r, <- app_assoc.
Qed.

Lemma sequence_buffers_eq (base64Vocab base64Sentence : jsstring)
  (samples1 samples2 : list spec_float) :
  decodePCM base64Vocab = Ok (AudioBuffer.mk 1 (length samples1) 24000 [samples1]) ->
  decodePCM base64Sentence = Ok (AudioBuffer.mk 1 (length samples2) 24000 [samples2]) ->
  (1 <= length samples1)%nat ->
  sequence_buffers base64Vocab base64Sentence =
  Ok (AudioBuffer.mk 1 (length samples1 + 3 * Z.to_nat 24000 + length samples2) 24000
        [samples1 ++ replicate (3 * Z.to_nat 24000) Number.zero ++ samples2]).
Proof.
  intros H1 H2 Hpos. unfold sequence_buffers. rewrite H1, H2.
  cbn [obind AudioBuffer.length].
  remember (3 * Z.to_nat 24000)%nat as gap.
  unfold createBuffer.
  destruct (Nat.eqb_spec (length samples1 + gap + length samples2) 0) as [E|_]; [lia|].
  cbn [obind orb Z.leb Z.compare].
  change (Z.to_nat 1) with 1%nat.
  unfold getChannelData, setChannelData.
  cbn [replicate lookup list_lookup AudioBuffer.channels obind AudioBuffer.length
         AudioBuffer.numberOfChannels AudioBuffer.sampleRate].
  unfold TypedArray_set at 1.
  rewrite length_replicate.
  destruct (Nat.ltb_spec (length samples1 + gap + length samples2) (length samples1 + 0));
    [lia|].
  cbn [obind].
  unfold TypedArray_set.
  rewrite length_inserts, length_replicate.
  destruct (Nat.ltb_spec (length samples1 + gap + length samples2)
              (length samples2 + (length samples1 + gap))); [lia|].
  cbn [obind].
  rewrite set_two_segments. reflexivity.
Qed.

Lemma sequenced_app (samples1 samples2 : list spec_float) (gap : nat) :
  sequenced samples1 samples2 (samples1 ++ replicate gap Number.zero ++ samples2) gap.
Proof.
  unfold sequenced. repeat split.
  - rewrite !length_app, length_replicate. lia.
  - intros i Hi. now rewrite lookup_app_l.
  - intros i Hi. rewrite lookup_app_r by lia.
    rewrite lookup_app_l by (rewrite length_replicate; lia).
    apply lookup_replicate_2. lia.
  - intros i Hi. rewrite lookup_app_r by lia.
    rewrite lookup_app_r by (rewrite length_replicate; lia).
    rewrite length_replicate. f_equal. lia.
Qed.

(** C2: for two decoded buffers of lengths [a] and [b], the sequencing
    steps of [generateSequentialPronunciation] produce a mono buffer at
    24000 Hz of length exactly [a + 3 * 24000 + b]: samples [0, a) are the
    first buffer's, samples [a, a + 3 * 24000) are all [+0.0], and the
    remaining [b] samples are the second buffer's. *)
Theorem sequence_buffers_layout (base64Vocab base64Sentence : jsstring)
  (buf1 buf2 : AudioBuffer) :
  decodePCM base64Vocab = Ok buf1 ->
  decodePCM base64Sentence = Ok buf2 ->
  exists samples1 samples2 out : list spec_float,
    AudioBuffer.channels buf1 = [samples1] /\ length samples1 = AudioBuffer.length buf1 /\
    AudioBuffer.channels buf2 = [samples2] /\ length samples2 = AudioBuffer.length buf2 /\
    sequence_buffers base64Vocab base64Sentence =
      Ok (AudioBuffer.mk 1
            (AudioBuffer.length buf1 + 3 * Z.to_nat 24000 + AudioBuffer.length buf2)
            24000 [out]) /\
    sequenced samples1 samples2 out (3 * Z.to_nat 24000).
Proof.
  intros H1 H2.
  destruct (decodePCM_shape _ _ H1) as (samples1 & -> & Hpos1).
  destruct (decodePCM_shape _ _ H2) as (samples2 & -> & Hpos2).
  exists samples1, samples2,
    (samples1 ++ replicate (3 * Z.to_nat 24000) Number.zero ++ samples2).
  cbn [AudioBuffer.channels AudioBuffer.length].
  repeat split; try reflexivity; try apply sequenced_app.
  now apply sequence_buffers_eq.
Qed.

Lemma sequence_buffers_layout_witness :
  exists samples1 samples2 out : list spec_float,
    [[S754_zero false; S754_finite false 8388608 (-38);
      S754_finite false 16776704 (-24); S754_finite true 8388608 (-23);
      S754_finite true 8388608 (-38)]] = [samples1] /\
    length samples1 = 5%nat /\
    [[S754_finite false 8388608 (-38); S754_finite false 8388608 (-37)]] = [samples2] /\
    length samples2 = 2%nat /\
    sequence_buffers (lit "AAABAP9/AID//w==") (lit "AQACAA==") =
      Ok (AudioBuffer.mk 1 (5 + 3 * Z.to_nat 24000 + 2) 24000 [out]) /\
    sequenced samples1 samples2 out (3 * Z.to_nat 24000).
Proof.
  exact (sequence_buffers_layout (lit "AAABAP9/AID//w==") (lit "AQACAA==")
           (AudioBuffer.mk 1 5 24000
              [[S754_zero false; S754_finite false 8388608 (-38);
                S754_finite false 16776704 (-24); S754_finite true 8388608 (-23);
                S754_finite true 8388608 (-38)]])
           (AudioBuffer.mk 1 2 24000
              [[S754_finite false 8388608 (-38); S754_finite false 8388608 (-37)]])
           eq_refl eq_refl).
Defined.

(** ** Running asynchronous functions *)

Lemma run_bind {A B : Type} (env : environment) (p : async A) (f : A -> async B) :
  run env (bind p f) =
  match run env p with
  | (trace, Ok a) => let (trace', o) := run env (f a) in (trace ++ trace', o)
  | (trace, Throw e) => (trace, Throw e)
  end.
Proof.
  induction p as [[a|e]|T c k IH]; cbn [bind run].
  - now destruct (run env (f a)).
  - reflexivity.
  - rewrite IH. destruct (run env (k (env T c))) as [trace [a|e]].
    + now destruct (run env (f a)).
    + reflexivity.
Qed.

Lemma run_try_catch {A : Type} (env : environment) (p : async A)
  (handler : error -> async A) :
  run env (try_catch p handler) =
  match run env p with
  | (trace, Ok a) => (trace, Ok a)
  | (trace, Throw e) => let (trace', o) := run env (handler e) in (trace ++ trace', o)
  end.
Proof.
  induction p as [[a|e]|T c k IH]; cbn [try_catch run].
  - reflexivity.
  - now destruct (run env (handler e)).
  - rewrite IH. destruct (run env (k (env T c))) as [trace [a|e]].
    + reflexivity.
    + now destruct (run env (handler e)).
Qed.

(** A [catch] block that logs and rethrows leaves the outcome unchanged. *)
Lemma run_log_rethrow {A : Type} (env : environment) (p : async A)
  (message : string) :
  (run env (try_catch p (fun e =>
      bind (console_log error_ message e) (fun _ => throw e)))).2 = (run env p).2.
Proof.
  rewrite run_try_catch. destruct (run env p) as [trace [a|e]]; reflexivity.
Qed.

Lemma run_fetchTTSBase64 (env : environment) (text : jsstring) :
  let c := generateContent (SynthesizeSpeech "gemini-2.5-flash-preview-tts" "Kore" text) in
  run env (fetchTTSBase64 text) =
  ([Called c; Settled c],
   (let! response := env _ c in
    match GenerateContentResponse.audioData response with
    | Some (c :: base64) => Ok (c :: base64)
    | _ => Throw (Error (lit "No audio data returned from API"))
    end)%outcome).
Proof.
  unfold fetchTTSBase64, await. cbn [bind run].
  destruct (env _ _) as [response|e]; cbn [bind run obind]; [|reflexivity].
  destruct (GenerateContentResponse.audioData response) as [[|c base64]|]; reflexivity.
Qed.

Lemma generatePronunciation_decodes (env : environment) (text : jsstring)
  (buffer : AudioBuffer) :
  (run env (generatePronunciation text)).2 = Ok buffer ->
  exists base64Audio : jsstring,
    (run env (fetchTTSBase64 text)).2 = Ok base64Audio /\
    decodePCM base64Audio = Ok buffer.
Proof.
  unfold generatePronunciation. rewrite run_log_rethrow, run_bind.
  destruct (run env (fetchTTSBase64 text)) as [trace [base64Audio|e]];
    cbn [run snd]; [|discriminate].
  intros H. exists base64Audio. split; [reflexivity | exact H].
Qed.

Lemma sequence_buffers_decodes (base64Vocab base64Sentence : jsstring)
  (buffer : AudioBuffer) :
  sequence_buffers base64Vocab base64Sentence = Ok buffer ->
  exists samples1 samples2 : list spec_float,
    decodePCM base64Vocab = Ok (AudioBuffer.mk 1 (length samples1) 24000 [samples1]) /\
    decodePCM base64Sentence = Ok (AudioBuffer.mk 1 (length samples2) 24000 [samples2]) /\
    buffer = AudioBuffer.mk 1 (length samples1 + 3 * Z.to_nat 24000 + length samples2)
               24000 [samples1 ++ replicate (3 * Z.to_nat 24000) Number.zero ++ samples2].
Proof.
  intros H.
  destruct (decodePCM base64Vocab) as [buf1|e] eqn:H1;
    [|unfold sequence_buffers in H; rewrite H1 in H; discriminate].
  destruct (decodePCM base64Sentence) as [buf2|e] eqn:H2;
    [|unfold sequence_buffers in H; rewrite H1, H2 in H; discriminate].
  destruct (decodePCM_shape _ _ H1) as (samples1 & -> & Hpos1).
  destruct (decodePCM_shape _ _ H2) as (samples2 & -> & Hpos2).
  rewrite (sequence_buffers_eq _ _ _ _ H1 H2 Hpos1) in H.
  apply Ok_inj in H. exists samples1, samples2. auto.
Qed.

Lemma generateSequentialPronunciation_sequences (env : environment)
  (schedule : list nat) (vocab sentence : jsstring) (buffer : AudioBuffer) :
  (generateSequentialPronunciation env schedule vocab sentence).2 = Some (Ok buffer) ->
  exists base64Vocab base64Sentence : jsstring,
    sequence_buffers base64Vocab base64Sentence = Ok buffer.
Proof.
  unfold generateSequentialPronunciation.
  destruct (Promise_all _ _ _ _) as [trace [[[base64Vocab base64Sentence]|e]|]];
    cbn [try_catch obind]; try discriminate.
  destruct (sequence_buffers base64Vocab base64Sentence) as [b|e] eqn:Hseq;
    cbn [try_catch run bind console_log throw snd]; [|discriminate].
  intros H. apply (inj Some), Ok_inj in H. subst b. eauto.
Qed.

(** C9: every buffer returned by [generatePronunciation] or
    [generateSequentialPronunciation] is mono at 24000 Hz; two decoded
    buffers always agree on sample rate and channel count, and once both
    clips decode the sequencing steps return a buffer: there is no mismatch
    error on any path. *)
Theorem returned_buffers_mono_24000 (env : environment) :
  (forall (text : jsstring) (buffer : AudioBuffer),
      (run env (generatePronunciation text)).2 = Ok buffer ->
      AudioBuffer.numberOfChannels buffer = 1 /\ AudioBuffer.sampleRate buffer = 24000) /\
  (forall (schedule : list nat) (vocab sentence : jsstring) (buffer : AudioBuffer),
      (generateSequentialPronunciation env schedule vocab sentence).2 = Some (Ok buffer) ->
      AudioBuffer.numberOfChannels buffer = 1 /\ AudioBuffer.sampleRate buffer = 24000) /\
  (forall (base64Vocab base64Sentence : jsstring) (buf1 buf2 : AudioBuffer),
      decodePCM base64Vocab = Ok buf1 -> decodePCM base64Sentence = Ok buf2 ->
      AudioBuffer.sampleRate buf1 = AudioBuffer.sampleRate buf2 /\
      AudioBuffer.numberOfChannels buf1 = AudioBuffer.numberOfChannels buf2 /\
      exists buffer : AudioBuffer,
        sequence_buffers base64Vocab base64Sentence = Ok buffer).
Proof.
  split; [|split].
  - intros text buffer H.
    destruct (generatePronunciation_decodes _ _ _ H) as (base64Audio & _ & Hdec).
    destruct (decodePCM_shape _ _ Hdec) as (samples & -> & _). split; reflexivity.
  - intros schedule vocab sentence buffer H.
    destruct (generateSequentialPronunciation_sequences _ _ _ _ _ H) as (v & s & Hseq).
    destruct (sequence_buffers_decodes _ _ _ Hseq) as (samples1 & samples2 & _ & _ & ->).
    split; reflexivity.
  - intros base64Vocab base64Sentence buf1 buf2 H1 H2.
    destruct (decodePCM_shape _ _ H1) as (samples1 & -> & Hpos1).
    destruct (decodePCM_shape _ _ H2) as (samples2 & -> & Hpos2).
    split; [reflexivity | split; [reflexivity|]].
    eexists. apply (sequence_buffers_eq _ _ samples1 samples2); assumption.
Qed.

(** ** [Promise.all] over functions that await one call *)

Section PromiseAll.

Context {A B : Type} (env : environment).

Lemma Promise_all_wait_fulfilled (schedule : list nat) (a : A) (b : B) :
  Promise_all_wait env schedule (Return (Ok a)) (Return (Ok b)) = ([], Some (Ok (a, b))).
Proof. destruct schedule; reflexivity. Qed.

Lemma Promise_all_wait_second {T : Type} (schedule : list nat) (a : A)
  (c : call T) (k : outcome T -> async B) (b : B) :
  In 1%nat schedule -> k (env _ c) = Return (Ok b) ->
  Promise_all_wait env schedule (Return (Ok a)) (Await c k)
  = ([Settled c], Some (Ok (a, b))).
Proof.
  intros Hin Hk. induction schedule as [|i schedule IH]; [destruct Hin|].
  destruct i as [|[|i]]; cbn [Promise_all_wait both_fulfilled resume rejection].
  - destruct Hin as [Hin|Hin]; [discriminate|].
    rewrite (IH Hin). reflexivity.
  - rewrite Hk. cbn [rejection issued]. rewrite Promise_all_wait_fulfilled. reflexivity.
  - destruct Hin as [Hin|Hin]; [discriminate|]. exact (IH Hin).
Qed.

Lemma Promise_all_wait_first {T : Type} (schedule : list nat)
  (c : call T) (k : outcome T -> async A) (a : A) (b : B) :
  In 0%nat schedule -> k (env _ c) = Return (Ok a) ->
  Promise_all_wait env schedule (Await c k) (Return (Ok b))
  = ([Settled c], Some (Ok (a, b))).
Proof.
  intros Hin Hk. induction schedule as [|i schedule IH]; [destruct Hin|].
  destruct i as [|[|i]]; cbn [Promise_all_wait both_fulfilled resume rejection].
  - rewrite Hk. cbn [rejection issued]. rewrite Promise_all_wait_fulfilled. reflexivity.
  - destruct Hin as [Hin|Hin]; [discriminate|].
    rewrite (IH Hin). reflexivity.
  - destruct Hin as [Hin|Hin]; [discriminate|]. exact (IH Hin).
Qed.

(** Both results are delivered in the order of the arguments, whichever
    call settles first. *)
Lemma Promise_all_wait_both {T1 T2 : Type} (schedule : list nat)
  (c1 : call T1) (k1 : outcome T1 -> async A) (c2 : call T2) (k2 : outcome T2 -> async B)
  (a : A) (b : B) :
  In 0%nat schedule -> In 1%nat schedule ->
  k1 (env _ c1) = Return (Ok a) -> k2 (env _ c2) = Return (Ok b) ->
  exists arrivals : list event,
    Promise_all_wait env schedule (Await c1 k1) (Await c2 k2)
    = (arrivals, Some (Ok (a, b))) /\
    (arrivals = [Settled c1; Settled c2] \/ arrivals = [Settled c2; Settled c1]).
Proof.
  intros H0 H1 Hk1 Hk2. induction schedule as [|i schedule IH]; [destruct H0|].
  destruct i as [|[|i]]; cbn [Promise_all_wait both_fulfilled resume].
  - destruct H1 as [H1|H1]; [discriminate|].
    rewrite Hk1. cbn [rejection issued].
    rewrite (Promise_all_wait_second schedule a c2 k2 b H1 Hk2).
    eexists. split; [reflexivity | left; reflexivity].
  - destruct H0 as [H0|H0]; [discriminate|].
    rewrite Hk2. cbn [rejection issued].
    rewrite (Promise_all_wait_first schedule c1 k1 a b H0 Hk1).
    eexists. split; [reflexivity | right; reflexivity].
  - destruct H0 as [H0|H0]; [discriminate|].
    destruct H1 as [H1|H1]; [discriminate|].
    exact (IH H0 H1).
Qed.

Lemma resume_single_await {C : Type} (p : async C) :
  single_await p ->
  single_await (resume env p).2 /\
  forallb (fun e => negb (is_request e)) (resume env p).1 = true.
Proof.
  destruct p as [o|T c k]; cbn [single_await resume]; intros H.
  - split; [exact I | reflexivity].
  - destruct (H (env _ c)) as [o Ho]. rewrite Ho. split; [exact I | reflexivity].
Qed.

(** While [Promise.all] waits, functions that await a single call issue
    nothing further: the trace only records calls settling. *)
Lemma Promise_all_wait_no_request (schedule : list nat) (p1 : async A) (p2 : async B) :
  single_await p1 -> single_await p2 ->
  forallb (fun e => negb (is_request e)) (Promise_all_wait env schedule p1 p2).1 = true.
Proof.
  revert p1 p2.
  induction schedule as [|i schedule IH]; intros p1 p2 Hp1 Hp2;
    cbn [Promise_all_wait]; destruct (both_fulfilled p1 p2); try reflexivity.
  destruct i as [|[|i]].
  - destruct (resume_single_await p1 Hp1) as [Hs Ht].
    destruct (resume env p1) as [trace p1']. cbn [fst snd] in Hs, Ht.
    destruct (rejection p1'); [exact Ht|].
    specialize (IH p1' p2 Hs Hp2).
    destruct (Promise_all_wait env schedule p1' p2) as [trace' r]. cbn [fst] in *.
    now rewrite forallb_app, Ht, IH.
  - destruct (resume_single_await p2 Hp2) as [Hs Ht].
    destruct (resume env p2) as [trace p2']. cbn [fst snd] in Hs, Ht.
    destruct (rejection p2'); [exact Ht|].
    specialize (IH p1 p2' Hp1 Hs).
    destruct (Promise_all_wait env schedule p1 p2') as [trace' r]. cbn [fst] in *.
    now rewrite forallb_app, Ht, IH.
  - now apply IH.
Qed.

End PromiseAll.

Lemma fetchTTSBase64_await (text : jsstring) :
  exists k : outcome GenerateContentResponse -> async jsstring,
    fetchTTSBase64 text =
      Await (generateContent (SynthesizeSpeech "gemini-2.5-flash-preview-tts" "Kore" text)) k /\
    (forall r, k r = Return
       (let! response := r in
        match GenerateContentResponse.audioData response with
        | Some (c :: base64) => Ok (c :: base64)
        | _ => Throw (Error (lit "No audio data returned from API"))
        end)%outcome).
Proof.
  eexists. split; [reflexivity|].
  intros [response|e]; cbn [bind obind]; [|reflexivity].
  destruct (GenerateContentResponse.audioData response) as [[|c base64]|]; reflexivity.
Qed.

Lemma generateSequentialPronunciation_trace (env : environment) (schedule : list nat)
  (vocab sentence : jsstring) :
  exists rest : list event,
    (generateSequentialPronunciation env schedule vocab sentence).1 =
      Called (generateContent (SynthesizeSpeech "gemini-2.5-flash-preview-tts" "Kore" vocab))
      :: Called (generateContent
                   (SynthesizeSpeech "gemini-2.5-flash-preview-tts" "Kore" sentence))
      :: rest /\
    forallb (fun e => negb (is_request e)) rest = true.
Proof.
  unfold generateSequentialPronunciation.
  destruct (fetchTTSBase64_await vocab) as (k1 & -> & Hk1).
  destruct (fetchTTSBase64_await sentence) as (k2 & -> & Hk2).
  unfold Promise_all. cbn [rejection issued app].
  pose proof (Promise_all_wait_no_request env schedule
                (Await (speech_request vocab) k1) (Await (speech_request sentence) k2)) as Hw.
  destruct (Promise_all_wait env schedule _ _) as [trace' [results|]]; cbn [fst] in Hw.
  - rewrite run_try_catch. cbn [run].
    assert (Hw' : forallb (fun e => negb (is_request e)) trace' = true).
    { apply Hw; intros r; eexists; [apply Hk1 | apply Hk2]. }
    destruct (let! (base64Vocab, base64Sentence) := results in _)%outcome as [b|e].
    + exists (trace' ++ []). split; [reflexivity|]. now rewrite app_nil_r.
    + exists (trace' ++ [Called (console error_ "Error generating sequential speech:" e);
                         Settled (console error_ "Error generating sequential speech:" e)]).
      split; [reflexivity|]. now rewrite forallb_app, Hw'.
  - eexists. split; [reflexivity|].
    apply Hw; intros r; eexists; [apply Hk1 | apply Hk2].
Qed.

Lemma generateSequentialPronunciation_result (env : environment) (schedule : list nat)
  (vocab sentence base64Vocab base64Sentence : jsstring) :
  In 0%nat schedule -> In 1%nat schedule ->
  (run env (fetchTTSBase64 vocab)).2 = Ok base64Vocab ->
  (run env (fetchTTSBase64 sentence)).2 = Ok base64Sentence ->
  (generateSequentialPronunciation env schedule vocab sentence).2 =
    Some (sequence_buffers base64Vocab base64Sentence).
Proof.
  intros H0 H1. rewrite !run_fetchTTSBase64. cbn [snd]. intros Hv Hs.
  unfold generateSequentialPronunciation.
  destruct (fetchTTSBase64_await vocab) as (k1 & -> & Hk1).
  destruct (fetchTTSBase64_await sentence) as (k2 & -> & Hk2).
  unfold Promise_all. cbn [rejection issued app].
  specialize (Hk1 (env _ (generateContent
    (SynthesizeSpeech "gemini-2.5-flash-preview-tts" "Kore" vocab)))).
  specialize (Hk2 (env _ (generateContent
    (SynthesizeSpeech "gemini-2.5-flash-preview-tts" "Kore" sentence)))).
  rewrite Hv in Hk1. rewrite Hs in Hk2.
  destruct (Promise_all_wait_both env schedule _ k1 _ k2 _ _ H0 H1 Hk1 Hk2)
    as (arrivals & -> & _).
  rewrite run_try_catch. cbn [run obind].
  destruct (sequence_buffers base64Vocab base64Sentence); reflexivity.
Qed.

(** ** The resource fetcher *)

Lemma run_bind_outcome {A B : Type} (env : environment) (p : async A)
  (f : A -> async B) :
  (run env (bind p f)).2 = (let! a := (run env p).2 in (run env (f a)).2)%outcome.
Proof.
  rewrite run_bind. destruct (run env p) as [trace [a|e]]; cbn [snd obind].
  - now destruct (run env (f a)).
  - reflexivity.
Qed.

Lemma run_try_catch_outcome {A : Type} (env : environment) (p : async A)
  (handler : error -> async A) :
  (run env (try_catch p handler)).2 =
  match (run env p).2 with
  | Ok a => Ok a
  | Throw e => (run env (handler e)).2
  end.
Proof.
  rewrite run_try_catch. destruct (run env p) as [trace [a|e]]; cbn [snd].
  - reflexivity.
  - now destruct (run env (handler e)).
Qed.

Lemma run_transport_path (env : environment) (target failure : jsstring) :
  (run env
     (let* response := await (fetch target) in
      if negb (Response.ok response)
      then throw (Error (failure ++ Response.statusText response))
      else
        let* blob := await (Response_blob response) in
        blobToBase64 blob)%async).2
  = retrieve env target failure.
Proof.
  unfold retrieve, blobToBase64, await, throw. cbn [bind run].
  destruct (env _ (fetch target)) as [response|e]; cbn [bind run obind snd];
    [|reflexivity].
  destruct (negb (Response.ok response)); cbn [bind run obind snd]; [reflexivity|].
  destruct (env _ (Response_blob response)) as [blob|e]; cbn [bind run obind snd];
    [|reflexivity].
  destruct (env _ (FileReader_readAsDataURL blob)) as [base64String|e];
    cbn [bind run obind snd]; reflexivity.
Qed.

(** The fetcher returns what the direct path retrieves; failing that, what
    the relay path retrieves; failing that too, it throws one fixed error. *)
Lemma run_fileToGenerativePart (env : environment) (url : jsstring) :
  (run env (fileToGenerativePart url)).2 =
  match retrieve_direct env url with
  | Ok data => Ok data
  | Throw _ =>
      match retrieve_relay env url with
      | Ok data => Ok data
      | Throw _ => Throw (Error retrieval_message)
      end
  end.
Proof.
  unfold fileToGenerativePart, retrieve_direct, retrieve_relay.
  rewrite run_try_catch_outcome, run_transport_path.
  destruct (retrieve env url _) as [data|e]; [reflexivity|].
  rewrite run_bind_outcome. cbn [console_log run snd obind].
  rewrite run_try_catch_outcome, run_bind_outcome. cbn [run snd].
  destruct (encodeURIComponent url) as [encoded|e']; cbn [obind].
  - rewrite run_transport_path.
    destruct (retrieve env _ _) as [data|e']; reflexivity.
  - reflexivity.
Qed.

Lemma run_analyzeJapaneseImage (env : environment)
  (JSON_parse : jsstring -> outcome value) (Number_toString : spec_float -> jsstring)
  (imageUrl : jsstring) :
  (run env (analyzeJapaneseImage JSON_parse Number_toString imageUrl)).2 =
  (let! base64Data := (run env (fileToGenerativePart imageUrl)).2 in
   analysis_of_response JSON_parse Number_toString
     (env _ (analysis_request base64Data)))%outcome.
Proof.
  unfold analyzeJapaneseImage. rewrite run_log_rethrow, run_bind_outcome.
  destruct (run env (fileToGenerativePart imageUrl)).2 as [base64Data|e];
    cbn [obind]; [|reflexivity].
  unfold analysis_of_response, await, throw. cbn [bind run snd].
  destruct (env _ _) as [response|e]; cbn [bind run snd obind]; [|reflexivity].
  destruct (GenerateContentResponse.text response) as [[|c text]|]; reflexivity.
Qed.

Example sample_analysis :
  (run (sample_env true)
     (analyzeJapaneseImage sample_JSON_parse sample_Number_toString sample_url)).2
  = Ok (AnalysisResult.mk tango (VString reibun) (tango ++ [10] ++ reibun)
          (VString [12383; 12435; 12372])).
Proof. vm_compute. reflexivity. Qed.

(** ** Vocab normalization *)

Lemma class_star_run (cls : Z -> bool) (s : jsstring) :
  forallb cls (take (class_star cls s) s) = true.
Proof.
  induction s as [|c s IH]; [reflexivity|].
  cbn [class_star]. destruct (cls c) eqn:Hc; [|reflexivity].
  cbn [take forallb]. now rewrite Hc, IH.
Qed.

Lemma class_star_maximal (cls : Z -> bool) (s : jsstring) :
  match drop (class_star cls s) s with
  | c :: _ => cls c = false
  | [] => True
  end.
Proof.
  induction s as [|c s IH]; [exact I|].
  cbn [class_star]. destruct (cls c) eqn:Hc.
  - exact IH.
  - exact Hc.
Qed.

Lemma replace_leading_drop (cls : Z -> bool) (s : jsstring) :
  replace_leading cls [] s = drop (class_star cls s) s.
Proof.
  unfold replace_leading, match_leading_plus.
  destruct (class_star cls s); reflexivity.
Qed.

(** C3: the vocab cleanup removes from the start of the string exactly the
    maximal run of code units of the class white space, ASCII digit,
    period, circled digit U+2460..U+2473, and nothing else: the string is
    the run followed by the result, every unit of the run is in the class,
    and the result does not start with a unit of the class. So U+2460
    followed by the word gives the word, and so does the word after
    [1. ]; the word alone is unchanged. *)
Theorem cleanVocab_strips_leading_markers :
  (forall vocab : jsstring,
      exists markers cleanVocab : jsstring,
        cleanVocab_of (VString vocab) = Ok cleanVocab /\
        vocab = markers ++ cleanVocab /\
        forallb leading_marker markers = true /\
        match cleanVocab with
        | c :: _ => leading_marker c = false
        | [] => True
        end) /\
  (forall c : Z,
      leading_marker c =
      is_whitespace c || ((48 <=? c) && (c <=? 57)) || (c =? 46)
      || ((9312 <=? c) && (c <=? 9331))) /\
  cleanVocab_of (VString (9312 :: tango)) = Ok tango /\
  cleanVocab_of (VString (lit "1. " ++ tango)) = Ok tango /\
  cleanVocab_of (VString tango) = Ok tango.
Proof.
  split; [|repeat split].
  intros vocab.
  exists (take (class_star leading_marker vocab) vocab),
         (drop (class_star leading_marker vocab) vocab).
  split; [|split; [|split]].
  - cbn [cleanVocab_of]. now rewrite replace_leading_drop.
  - now rewrite take_drop.
  - apply class_star_run.
  - apply class_star_maximal.
Qed.

(** ** The analysis result *)

Section AnalysisProperties.

Variable env : environment.
Variable JSON_parse : jsstring -> outcome value.
Variable Number_toString : spec_float -> jsstring.

Lemma analysis_of_text_inv (text : jsstring) (result : AnalysisResult) :
  analysis_of_text JSON_parse Number_toString text = Ok result ->
  exists (parsed : value) (vocab sentenceText : jsstring),
    JSON_parse text = Ok parsed /\
    Get parsed (lit "vocab") = Ok (VString vocab) /\
    AnalysisResult.vocab result = replace_leading leading_marker [] vocab /\
    Get parsed (lit "sentence") = Ok (AnalysisResult.sentence result) /\
    Get parsed (lit "reading") = Ok (AnalysisResult.reading result) /\
    ToString Number_toString (AnalysisResult.sentence result) = Ok sentenceText /\
    AnalysisResult.japanese result = AnalysisResult.vocab result ++ [10] ++ sentenceText.
Proof.
  unfold analysis_of_text. intros H.
  destruct (JSON_parse text) as [parsed|e] eqn:Hp; [|discriminate]. cbn [obind] in H.
  destruct (Get parsed (lit "vocab")) as [vocab|e] eqn:Hv; [|discriminate].
  cbn [obind] in H.
  destruct vocab as [| | | |vocab| |]; try discriminate. cbn [cleanVocab_of obind] in H.
  destruct (Get parsed (lit "sentence")) as [sentence|e] eqn:Hsent; [|discriminate].
  cbn [obind] in H.
  destruct (Get parsed (lit "reading")) as [reading|e] eqn:Hread; [|discriminate].
  cbn [obind] in H.
  destruct (ToString Number_toString sentence) as [sentenceText|e] eqn:Hs; [|discriminate].
  cbn [obind] in H. apply Ok_inj in H. subst result.
  exists parsed, vocab, sentenceText.
  cbn [AnalysisResult.vocab AnalysisResult.sentence AnalysisResult.reading
         AnalysisResult.japanese].
  repeat split; auto.
Qed.

Lemma analyzeJapaneseImage_inv (imageUrl : jsstring) (result : AnalysisResult) :
  (run env (analyzeJapaneseImage JSON_parse Number_toString imageUrl)).2 = Ok result ->
  exists (base64Data : option jsstring) (response : GenerateContentResponse)
         (text : jsstring),
    (run env (fileToGenerativePart imageUrl)).2 = Ok base64Data /\
    env _ (analysis_request base64Data) = Ok response /\
    GenerateContentResponse.text response = Some text /\
    analysis_of_text JSON_parse Number_toString text = Ok result.
Proof.
  rewrite run_analyzeJapaneseImage.
  destruct (run env (fileToGenerativePart imageUrl)).2 as [base64Data|e];
    [|discriminate].
  cbn [obind]. unfold analysis_of_response.
  destruct (env _ _) as [response|e] eqn:Henv; [|discriminate]. cbn [obind].
  destruct (GenerateContentResponse.text response) as [[|c text]|] eqn:Htext;
    try discriminate.
  intros H. exists base64Data, response, (c :: text). auto.
Qed.

(** C4: in every result that [analyzeJapaneseImage] returns, [japanese] is
    the returned (cleaned) [vocab], one line feed, and the string form of
    the returned [sentence]; when [sentence] is a string, as the response
    schema requires, that is the sentence itself. For a response whose
    vocab is the word U+5358 U+8A9E and whose sentence is
    U+4F8B U+6587 U+3067 U+3059 U+3002 the field is exactly the word, a
    line feed and the sentence. *)
Theorem japanese_is_vocab_newline_sentence :
  (forall (imageUrl : jsstring) (result : AnalysisResult),
      (run env (analyzeJapaneseImage JSON_parse Number_toString imageUrl)).2 = Ok result ->
      exists sentenceText : jsstring,
        ToString Number_toString (AnalysisResult.sentence result) = Ok sentenceText /\
        AnalysisResult.japanese result
        = AnalysisResult.vocab result ++ [10] ++ sentenceText /\
        (forall s : jsstring,
            AnalysisResult.sentence result = VString s ->
            AnalysisResult.japanese result = AnalysisResult.vocab result ++ [10] ++ s)) /\
  (forall (text : jsstring) (parsed vocab : value),
      JSON_parse text = Ok parsed ->
      Get parsed (lit "vocab") = Ok vocab ->
      cleanVocab_of vocab = Ok tango ->
      Get parsed (lit "sentence") = Ok (VString reibun) ->
      exists result : AnalysisResult,
        analysis_of_text JSON_parse Number_toString text = Ok result /\
        AnalysisResult.japanese result
        = [21336; 35486; 10; 20363; 25991; 12391; 12377; 12290]).
Proof.
  split.
  - intros imageUrl result H.
    destruct (analyzeJapaneseImage_inv _ _ H) as (data & response & text & _ & _ & _ & Ht).
    destruct (analysis_of_text_inv _ _ Ht)
      as (parsed & vocab & sentenceText & _ & _ & _ & _ & _ & Hs & Hj).
    exists sentenceText. split; [exact Hs | split; [exact Hj|]].
    intros s Hstr. rewrite Hstr in Hs. cbn [ToString] in Hs.
    apply Ok_inj in Hs. now subst sentenceText.
  - intros text parsed vocab Hp Hv Hc Hs. unfold analysis_of_text.
    rewrite Hp. cbn [obind]. rewrite Hv. cbn [obind]. rewrite Hc, Hs.
    cbn [obind]. destruct (Get parsed (lit "reading")) as [reading|e] eqn:Hr.
    + cbn [obind ToString]. eexists. split; reflexivity.
    + destruct parsed; cbn in Hv, Hr; discriminate.
Qed.

(** Every result that [analyzeJapaneseImage] returns comes from a parsed
    response whose [vocab] is a string, and holds that response's
    [sentence] and [reading] as they are. *)
Lemma returned_result_fields :
  forall (imageUrl : jsstring) (result : AnalysisResult),
    (run env (analyzeJapaneseImage JSON_parse Number_toString imageUrl)).2 = Ok result ->
    exists (base64Data : option jsstring) (response : GenerateContentResponse)
           (text : jsstring) (parsed : value) (vocab : jsstring),
      env _ (analysis_request base64Data) = Ok response /\
      GenerateContentResponse.text response = Some text /\
      JSON_parse text = Ok parsed /\
      Get parsed (lit "sentence") = Ok (AnalysisResult.sentence result) /\
      Get parsed (lit "reading") = Ok (AnalysisResult.reading result) /\
      Get parsed (lit "vocab") = Ok (VString vocab) /\
      AnalysisResult.vocab result = replace_leading leading_marker [] vocab /\
      (forall properties : list (jsstring * value),
          parsed = VObject properties ->
          (forall s : jsstring,
              own_property (lit "sentence") properties = Some (VString s) ->
              AnalysisResult.sentence result = VString s) /\
          (forall s : jsstring,
              own_property (lit "reading") properties = Some (VString s) ->
              AnalysisResult.reading result = VString s) /\
          (own_property (lit "sentence") properties = None ->
           AnalysisResult.sentence result = VUndefined) /\
          (own_property (lit "reading") properties = None ->
           AnalysisResult.reading result = VUndefined)).
Proof.
  intros imageUrl result H.
  destruct (analyzeJapaneseImage_inv _ _ H)
    as (data & response & text & _ & Henv & Htext & Ht).
  destruct (analysis_of_text_inv _ _ Ht)
    as (parsed & vocab & sentenceText & Hp & Hv & Hclean & Hs & Hr & _ & _).
  exists data, response, text, parsed, vocab.
  repeat (split; [assumption|]).
  intros properties ->. cbn [Get] in Hs, Hr.
  apply Ok_inj in Hs. apply Ok_inj in Hr.
  rewrite <- Hs, <- Hr.
  repeat split; intros; match goal with
                        | E : own_property _ _ = _ |- _ => now rewrite E
                        end.
Qed.

End AnalysisProperties.

(** A response that parses but holds no [vocab] yields no result at all:
    [parsed.vocab.replace] throws before any field is read, so it is not
    true that every parsed response comes back with its [sentence] and
    [reading] passed through. *)
Lemma parsed_response_without_vocab_fails :
  ~ (forall (env : environment) (JSON_parse : jsstring -> outcome value)
       (Number_toString : spec_float -> jsstring) (imageUrl : jsstring)
       (base64Data : option jsstring) (response : GenerateContentResponse)
       (text : jsstring) (parsed : value),
        (run env (fileToGenerativePart imageUrl)).2 = Ok base64Data ->
        env _ (analysis_request base64Data) = Ok response ->
        GenerateContentResponse.text response = Some text -> text <> [] ->
        JSON_parse text = Ok parsed ->
        exists result : AnalysisResult,
          (run env (analyzeJapaneseImage JSON_parse Number_toString imageUrl)).2
          = Ok result /\
          Get parsed (lit "sentence") = Ok (AnalysisResult.sentence result) /\
          Get parsed (lit "reading") = Ok (AnalysisResult.reading result)).
Proof.
  intros H.
  destruct (H (sample_env true)
              (fun _ => Ok (VObject [(lit "sentence", VString reibun);
                                     (lit "reading", VString [12383; 12435; 12372])]))
              sample_Number_toString sample_url (Some (lit "/9j/4AAQ"))
              (GenerateContentResponse.mk (Some sample_text) None) sample_text
              (VObject [(lit "sentence", VString reibun);
                        (lit "reading", VString [12383; 12435; 12372])]))
    as (result & Hrun & _).
  - vm_compute. reflexivity.
  - reflexivity.
  - reflexivity.
  - discriminate.
  - reflexivity.
  - vm_compute in Hrun. discriminate Hrun.
Qed.

Example missing_vocab_throws :
  (run (sample_env true)
     (analyzeJapaneseImage
        (fun _ => Ok (VObject [(lit "sentence", VString reibun);
                               (lit "reading", VString [12383; 12435; 12372])]))
        sample_Number_toString sample_url)).2
  = Throw TypeError.
Proof. vm_compute. reflexivity. Qed.

(** C8 (as amended): for every response that [analyzeJapaneseImage] parses
    and whose [vocab] is a string, the [sentence] and [reading] of the
    parsed response can be read, a property the response lacks reading as
    [undefined], and whenever the sentence has a string form (as every
    string, and a missing sentence, has) a result is returned whose
    [sentence] and [reading] are exactly those values, unmodified; only
    [vocab] differs from the response, by the removal of its leading
    markers. Conversely every returned result arises in this way. *)
Theorem string_vocab_response_fields_verbatim (env : environment)
  (JSON_parse : jsstring -> outcome value) (Number_toString : spec_float -> jsstring)
  (imageUrl : jsstring) :
  (forall (base64Data : option jsstring) (response : GenerateContentResponse)
          (text : jsstring) (parsed : value) (vocab : jsstring),
      (run env (fileToGenerativePart imageUrl)).2 = Ok base64Data ->
      env _ (analysis_request base64Data) = Ok response ->
      GenerateContentResponse.text response = Some text -> text <> [] ->
      JSON_parse text = Ok parsed ->
      Get parsed (lit "vocab") = Ok (VString vocab) ->
      exists sentence reading : value,
        Get parsed (lit "sentence") = Ok sentence /\
        Get parsed (lit "reading") = Ok reading /\
        (forall properties : list (jsstring * value),
            parsed = VObject properties ->
            sentence = default VUndefined (own_property (lit "sentence") properties) /\
            reading = default VUndefined (own_property (lit "reading") properties)) /\
        (forall sentenceText : jsstring,
            ToString Number_toString sentence = Ok sentenceText ->
            (run env (analyzeJapaneseImage JSON_parse Number_toString imageUrl)).2
            = Ok (AnalysisResult.mk (replace_leading leading_marker [] vocab) sentence
                    (replace_leading leading_marker [] vocab ++ [10] ++ sentenceText)
                    reading)) /\
        (forall s : jsstring,
            sentence = VString s ->
            (run env (analyzeJapaneseImage JSON_parse Number_toString imageUrl)).2
            = Ok (AnalysisResult.mk (replace_leading leading_marker [] vocab) (VString s)
                    (replace_leading leading_marker [] vocab ++ [10] ++ s) reading)) /\
        (sentence = VUndefined ->
         (run env (analyzeJapaneseImage JSON_parse Number_toString imageUrl)).2
         = Ok (AnalysisResult.mk (replace_leading leading_marker [] vocab) VUndefined
                 (replace_leading leading_marker [] vocab ++ [10] ++ lit "undefined")
                 reading))) /\
  (forall result : AnalysisResult,
      (run env (analyzeJapaneseImage JSON_parse Number_toString imageUrl)).2 = Ok result ->
      exists (base64Data : option jsstring) (response : GenerateContentResponse)
             (text : jsstring) (parsed : value) (vocab : jsstring),
        env _ (analysis_request base64Data) = Ok response /\
        GenerateContentResponse.text response = Some text /\
        JSON_parse text = Ok parsed /\
        Get parsed (lit "vocab") = Ok (VString vocab) /\
        Get parsed (lit "sentence") = Ok (AnalysisResult.sentence result) /\
        Get parsed (lit "reading") = Ok (AnalysisResult.reading result) /\
        AnalysisResult.vocab result = replace_leading leading_marker [] vocab).
Proof.
  split.
  - intros data response text parsed vocab Hd Hr Ht Hne Hp Hv.
    assert (Hget : forall key, exists v, Get parsed key = Ok v /\
                     forall properties, parsed = VObject properties ->
                       v = default VUndefined (own_property key properties)).
    { intros key. destruct parsed; cbn [Get] in Hv |- *; try discriminate;
        eexists; (split; [reflexivity|]); intros properties' Heq;
          try discriminate Heq.
      now injection Heq as ->. }
    destruct (Hget (lit "sentence")) as (sentence & Hs & Hs').
    destruct (Hget (lit "reading")) as (reading & Hrd & Hrd').
    exists sentence, reading.
    assert (Hrun : forall sentenceText : jsstring,
               ToString Number_toString sentence = Ok sentenceText ->
               (run env (analyzeJapaneseImage JSON_parse Number_toString imageUrl)).2
               = Ok (AnalysisResult.mk (replace_leading leading_marker [] vocab) sentence
                       (replace_leading leading_marker [] vocab ++ [10] ++ sentenceText)
                       reading)).
    { intros sentenceText Hstr.
      rewrite run_analyzeJapaneseImage, Hd. cbn [obind].
      unfold analysis_of_response. rewrite Hr. cbn [obind]. rewrite Ht.
      destruct text as [|c text]; [contradiction|].
      unfold analysis_of_text. rewrite Hp. cbn [obind]. rewrite Hv.
      cbn [obind cleanVocab_of]. rewrite Hs. cbn [obind]. rewrite Hrd.
      cbn [obind]. rewrite Hstr. reflexivity. }
    split; [exact Hs | split; [exact Hrd | split; [|split; [exact Hrun | split]]]].
    + intros properties Heq. split; [now apply Hs' | now apply Hrd'].
    + intros s ->. now apply Hrun.
    + intros ->. now apply Hrun.
  - intros result H.
    destruct (returned_result_fields env JSON_parse Number_toString imageUrl result H)
      as (data & response & text & parsed & vocab & H1 & H2 & H3 & H4 & H5 & H6 & H7 & _).
    exists data, response, text, parsed, vocab. auto 10.
Qed.

Lemma string_vocab_response_fields_verbatim_witness :
  exists sentence reading : value,
    Get (VObject [(lit "vocab", VString (9312 :: tango)); (lit "reading", VNull)])
      (lit "sentence") = Ok sentence /\
    Get (VObject [(lit "vocab", VString (9312 :: tango)); (lit "reading", VNull)])
      (lit "reading") = Ok reading /\
    sentence = VUndefined /\ reading = VNull /\
    (run (sample_env true)
       (analyzeJapaneseImage
          (fun _ => Ok (VObject [(lit "vocab", VString (9312 :: tango));
                                 (lit "reading", VNull)]))
          sample_Number_toString sample_url)).2
    = Ok (AnalysisResult.mk tango VUndefined (tango ++ [10] ++ lit "undefined") VNull).
Proof.
  destruct (proj1 (string_vocab_response_fields_verbatim (sample_env true)
                     (fun _ => Ok (VObject [(lit "vocab", VString (9312 :: tango));
                                            (lit "reading", VNull)]))
                     sample_Number_toString sample_url)
              (Some (lit "/9j/4AAQ"))
              (GenerateContentResponse.mk (Some sample_text) None) sample_text
              (VObject [(lit "vocab", VString (9312 :: tango)); (lit "reading", VNull)])
              (9312 :: tango))
    as (sentence & reading & Hs & Hr & Hprops & _ & _ & Hundef).
  - vm_compute. reflexivity.
  - reflexivity.
  - reflexivity.
  - discriminate.
  - reflexivity.
  - reflexivity.
  - destruct (Hprops _ eq_refl) as [Hs' Hr'].
    cbn in Hs', Hr'. subst sentence reading.
    exists VUndefined, VNull.
    split; [exact Hs | split; [exact Hr | split; [reflexivity | split; [reflexivity|]]]].
    exact (Hundef eq_refl).
Defined.

(** ** Fallback and failure of the resource fetcher *)

Lemma retrieve_direct_network_error (env : environment) (url : jsstring) (e : error) :
  env _ (fetch url) = Throw e -> retrieve_direct env url = Throw e.
Proof. unfold retrieve_direct, retrieve. now intros ->. Qed.

Lemma retrieve_direct_not_ok (env : environment) (url : jsstring) (response : Response) :
  env _ (fetch url) = Ok response -> Response.ok response = false ->
  retrieve_direct env url
  = Throw (Error (lit "Direct fetch failed: " ++ Response.statusText response)).
Proof. unfold retrieve_direct, retrieve. intros -> Hok. cbn [obind]. now rewrite Hok. Qed.

Lemma analyzeJapaneseImage_trace (env : environment)
  (JSON_parse : jsstring -> outcome value) (Number_toString : spec_float -> jsstring)
  (imageUrl : jsstring) (base64Data : option jsstring) :
  (run env (fileToGenerativePart imageUrl)).2 = Ok base64Data ->
  exists after : list event,
    (run env (analyzeJapaneseImage JSON_parse Number_toString imageUrl)).1 =
    (run env (fileToGenerativePart imageUrl)).1
    ++ Called (analysis_request base64Data) :: Settled (analysis_request base64Data)
    :: after.
Proof.
  intros H. unfold analyzeJapaneseImage. rewrite run_try_catch, run_bind.
  destruct (run env (fileToGenerativePart imageUrl)) as [trace [data|e]];
    cbn [snd] in H; [|discriminate].
  apply Ok_inj in H. subst data. cbn [fst].
  unfold await. cbn [bind run].
  match goal with
  | |- context [run env ?p] => destruct (run env p) as [trace' [result|e]]
  end.
  - exists trace'. reflexivity.
  - cbn [console_log bind run throw].
    eexists. cbn [fst]. rewrite <- app_assoc. reflexivity.
Qed.

(** C5: when the direct path fails (a network error, a status that is not
    OK, or an unreadable body) and the relay path retrieves [data], the
    fetcher returns [data]; [analyzeJapaneseImage] sends [data] to the
    model and its outcome is what the model's answer to that request
    yields, so it returns a result whenever that answer parses. The
    failure of the direct path appears in no outcome. *)
Theorem relay_fallback_succeeds (env : environment)
  (JSON_parse : jsstring -> outcome value) (Number_toString : spec_float -> jsstring)
  (url : jsstring) (e : error) (data : option jsstring) :
  retrieve_direct env url = Throw e ->
  retrieve_relay env url = Ok data ->
  (run env (fileToGenerativePart url)).2 = Ok data /\
  (exists before after : list event,
      (run env (analyzeJapaneseImage JSON_parse Number_toString url)).1
      = before ++ Called (analysis_request data) :: after) /\
  (run env (analyzeJapaneseImage JSON_parse Number_toString url)).2
  = analysis_of_response JSON_parse Number_toString (env _ (analysis_request data)) /\
  (forall (response : GenerateContentResponse) (text : jsstring)
          (result : AnalysisResult),
      env _ (analysis_request data) = Ok response ->
      GenerateContentResponse.text response = Some text -> text <> [] ->
      analysis_of_text JSON_parse Number_toString text = Ok result ->
      (run env (analyzeJapaneseImage JSON_parse Number_toString url)).2 = Ok result).
Proof.
  intros Hdirect Hrelay.
  assert (Hfetch : (run env (fileToGenerativePart url)).2 = Ok data).
  { now rewrite run_fileToGenerativePart, Hdirect, Hrelay. }
  assert (Hrun : (run env (analyzeJapaneseImage JSON_parse Number_toString url)).2
                 = analysis_of_response JSON_parse Number_toString
                     (env _ (analysis_request data))).
  { now rewrite run_analyzeJapaneseImage, Hfetch. }
  split; [exact Hfetch | split; [|split; [exact Hrun|]]].
  - destruct (analyzeJapaneseImage_trace env JSON_parse Number_toString url data Hfetch)
      as [after Hafter].
    eexists. eexists. exact Hafter.
  - intros response text result Hresp Htext Hne Hres.
    rewrite Hrun, Hresp. unfold analysis_of_response. cbn [obind]. rewrite Htext.
    destruct text as [|c text]; [contradiction | exact Hres].
Qed.

Lemma relay_fallback_succeeds_witness :
  retrieve_direct (sample_env true) sample_url = Throw (Reason 0) /\
  retrieve_relay (sample_env true) sample_url = Ok (Some (lit "/9j/4AAQ")) /\
  (run (sample_env true) (fileToGenerativePart sample_url)).2
  = Ok (Some (lit "/9j/4AAQ")) /\
  (run (sample_env true)
     (analyzeJapaneseImage sample_JSON_parse sample_Number_toString sample_url)).2
  = Ok (AnalysisResult.mk tango (VString reibun) (tango ++ [10] ++ reibun)
          (VString [12383; 12435; 12372])).
Proof.
  assert (Hdirect : retrieve_direct (sample_env true) sample_url = Throw (Reason 0))
    by (vm_compute; reflexivity).
  assert (Hrelay : retrieve_relay (sample_env true) sample_url
                   = Ok (Some (lit "/9j/4AAQ")))
    by (vm_compute; reflexivity).
  destruct (relay_fallback_succeeds (sample_env true) sample_JSON_parse
              sample_Number_toString sample_url (Reason 0) (Some (lit "/9j/4AAQ"))
              Hdirect Hrelay) as (Hfetch & _ & _ & Hresult).
  split; [exact Hdirect | split; [exact Hrelay | split; [exact Hfetch|]]].
  apply (Hresult (GenerateContentResponse.mk (Some sample_text) None) sample_text).
  - reflexivity.
  - reflexivity.
  - discriminate.
  - vm_compute. reflexivity.
Defined.

(** C6: the only error that ever leaves the fetcher is
    [new Error(retrieval_message)]. When the direct path and the relay path
    both fail, whatever the two underlying errors are, the fetcher throws
    it and [analyzeJapaneseImage] rethrows it to its caller. The message
    starts with the four code units the caller looks for and lists three
    numbered causes. *)
Theorem both_paths_fail_retrieval_error (env : environment)
  (JSON_parse : jsstring -> outcome value) (Number_toString : spec_float -> jsstring)
  (url : jsstring) :
  (forall e : error,
      (run env (fileToGenerativePart url)).2 = Throw e -> e = Error retrieval_message) /\
  (forall e1 e2 : error,
      retrieve_direct env url = Throw e1 ->
      retrieve_relay env url = Throw e2 ->
      (run env (fileToGenerativePart url)).2 = Throw (Error retrieval_message) /\
      (run env (analyzeJapaneseImage JSON_parse Number_toString url)).2
      = Throw (Error retrieval_message)) /\
  take 4 retrieval_message = [28961; 27861; 35712; 21462] /\
  (exists intro cause1 cause2 cause3 : jsstring,
      retrieval_message
      = intro ++ lit "1. " ++ cause1 ++ lit " 2. " ++ cause2 ++ lit " 3. " ++ cause3).
Proof.
  split; [|split; [|split]].
  - intros e. rewrite run_fileToGenerativePart.
    destruct (retrieve_direct env url); [discriminate|].
    destruct (retrieve_relay env url); [discriminate|].
    intros H. inversion H. reflexivity.
  - intros e1 e2 Hdirect Hrelay.
    assert (Hfetch : (run env (fileToGenerativePart url)).2
                     = Throw (Error retrieval_message)).
    { now rewrite run_fileToGenerativePart, Hdirect, Hrelay. }
    split; [exact Hfetch|].
    now rewrite run_analyzeJapaneseImage, Hfetch.
  - reflexivity.
  - exists (take 15 retrieval_message), (take 4 (drop 18 retrieval_message)),
      (take 7 (drop 26 retrieval_message)), (drop 37 retrieval_message).
    reflexivity.
Qed.

Lemma both_paths_fail_retrieval_error_witness :
  (run (sample_env false) (fileToGenerativePart sample_url)).2
  = Throw (Error retrieval_message) /\
  (run (sample_env false)
     (analyzeJapaneseImage sample_JSON_parse sample_Number_toString sample_url)).2
  = Throw (Error retrieval_message).
Proof.
  apply (proj1 (proj2 (both_paths_fail_retrieval_error (sample_env false)
                         sample_JSON_parse sample_Number_toString sample_url))
           (Reason 0) (Error (lit "Proxy fetch failed: Forbidden"))).
  - vm_compute. reflexivity.
  - vm_compute. reflexivity.
Defined.

(** ** Two requests, results in the order of the arguments *)

(** C7: [generateSequentialPronunciation vocab sentence] issues exactly two
    requests to the model, the one for [vocab] and then the one for
    [sentence], both before any call settles. Whenever both answers arrive
    and carry audio, in whichever order, the outcome is the sequencing of
    the vocab answer's audio followed by the sentence answer's audio: when
    both clips decode, the returned channel is the vocab clip, the silence,
    and the sentence clip. *)
Theorem two_requests_results_in_argument_order (env : environment)
  (schedule : list nat) (vocab sentence : jsstring) :
  (exists rest : list event,
      (generateSequentialPronunciation env schedule vocab sentence).1
      = Called (speech_request vocab) :: Called (speech_request sentence) :: rest /\
      forallb (fun e => negb (is_request e)) rest = true) /\
  (forall (response1 response2 : GenerateContentResponse)
          (base64Vocab base64Sentence : jsstring),
      In 0%nat schedule -> In 1%nat schedule ->
      env _ (speech_request vocab) = Ok response1 ->
      GenerateContentResponse.audioData response1 = Some base64Vocab ->
      base64Vocab <> [] ->
      env _ (speech_request sentence) = Ok response2 ->
      GenerateContentResponse.audioData response2 = Some base64Sentence ->
      base64Sentence <> [] ->
      (generateSequentialPronunciation env schedule vocab sentence).2
      = Some (sequence_buffers base64Vocab base64Sentence) /\
      (forall buf1 buf2 : AudioBuffer,
          decodePCM base64Vocab = Ok buf1 -> decodePCM base64Sentence = Ok buf2 ->
          exists samples1 samples2 out : list spec_float,
            AudioBuffer.channels buf1 = [samples1] /\
            AudioBuffer.channels buf2 = [samples2] /\
            (generateSequentialPronunciation env schedule vocab sentence).2
            = Some (Ok (AudioBuffer.mk 1
                          (length samples1 + 3 * Z.to_nat 24000 + length samples2)
                          24000 [out])) /\
            sequenced samples1 samples2 out (3 * Z.to_nat 24000))).
Proof.
  split; [apply generateSequentialPronunciation_trace|].
  intros response1 response2 base64Vocab base64Sentence H0 H1 He1 Ha1 Hn1 He2 Ha2 Hn2.
  assert (Hres : (generateSequentialPronunciation env schedule vocab sentence).2
                 = Some (sequence_buffers base64Vocab base64Sentence)).
  { apply generateSequentialPronunciation_result; try assumption;
      rewrite run_fetchTTSBase64; cbn [snd].
    - rewrite He1. cbn [obind]. rewrite Ha1.
      destruct base64Vocab; [contradiction | reflexivity].
    - rewrite He2. cbn [obind]. rewrite Ha2.
      destruct base64Sentence; [contradiction | reflexivity]. }
  split; [exact Hres|].
  intros buf1 buf2 Hd1 Hd2.
  destruct (decodePCM_shape _ _ Hd1) as (samples1 & -> & Hpos1).
  destruct (decodePCM_shape _ _ Hd2) as (samples2 & -> & Hpos2).
  exists samples1, samples2,
    (samples1 ++ replicate (3 * Z.to_nat 24000) Number.zero ++ samples2).
  split; [reflexivity | split; [reflexivity | split]].
  - rewrite Hres. f_equal. now apply sequence_buffers_eq.
  - apply sequenced_app.
Qed.

Lemma two_requests_results_in_argument_order_witness :
  (generateSequentialPronunciation (sample_env true) [1%nat; 0%nat] tango reibun).2
  = Some (sequence_buffers (lit "AAABAP9/AID//w==") (lit "AQACAA==")) /\
  (generateSequentialPronunciation (sample_env true) [0%nat; 1%nat] tango reibun).2
  = Some (sequence_buffers (lit "AAABAP9/AID//w==") (lit "AQACAA==")).
Proof.
  split.
  - apply (proj2 (two_requests_results_in_argument_order (sample_env true)
                    [1%nat; 0%nat] tango reibun)
             (GenerateContentResponse.mk None (Some (lit "AAABAP9/AID//w==")))
             (GenerateContentResponse.mk None (Some (lit "AQACAA==")))
             (lit "AAABAP9/AID//w==") (lit "AQACAA=="));
      try reflexivity; try discriminate; simpl; auto.
  - apply (proj2 (two_requests_results_in_argument_order (sample_env true)
                    [0%nat; 1%nat] tango reibun)
             (GenerateContentResponse.mk None (Some (lit "AAABAP9/AID//w==")))
             (GenerateContentResponse.mk None (Some (lit "AQACAA==")))
             (lit "AAABAP9/AID//w==") (lit "AQACAA=="));
      try reflexivity; try discriminate; simpl; auto.
Defined.

Example sentence_answer_first :
  (generateSequentialPronunciation (sample_env true) [1%nat; 0%nat] tango reibun).1
  = [Called (speech_request tango); Called (speech_request reibun);
     Settled (speech_request reibun); Settled (speech_request tango)].
Proof. vm_compute. reflexivity. Qed.

Lemma returned_buffers_mono_24000_witness :
  AudioBuffer.numberOfChannels
    (AudioBuffer.mk 1 2 24000
       [[S754_finite false 8388608 (-38); S754_finite false 8388608 (-37)]]) = 1 /\
  AudioBuffer.sampleRate
    (AudioBuffer.mk 1 2 24000
       [[S754_finite false 8388608 (-38); S754_finite false 8388608 (-37)]]) = 24000.
Proof.
  apply (proj1 (returned_buffers_mono_24000 (sample_env true)) reibun).
  vm_compute. reflexivity.
Defined.

Lemma japanese_is_vocab_newline_sentence_witness :
  (exists sentenceText : jsstring,
      ToString sample_Number_toString (VString reibun) = Ok sentenceText /\
      tango ++ [10] ++ reibun = tango ++ [10] ++ sentenceText /\
      (forall s : jsstring,
          VString reibun = VString s -> tango ++ [10] ++ reibun = tango ++ [10] ++ s)) /\
  (exists result : AnalysisResult,
      analysis_of_text sample_JSON_parse sample_Number_toString sample_text = Ok result /\
      AnalysisResult.japanese result
      = [21336; 35486; 10; 20363; 25991; 12391; 12377; 12290]).
Proof.
  split.
  - apply (proj1 (japanese_is_vocab_newline_sentence (sample_env true)
                    sample_JSON_parse sample_Number_toString)
             sample_url
             (AnalysisResult.mk tango (VString reibun) (tango ++ [10] ++ reibun)
                (VString [12383; 12435; 12372]))).
    vm_compute. reflexivity.
  - apply (proj2 (japanese_is_vocab_newline_sentence (sample_env true)
                    sample_JSON_parse sample_Number_toString)
             sample_text
             (VObject [(lit "vocab", VString (9312 :: tango));
                       (lit "sentence", VString reibun);
                       (lit "reading", VString [12383; 12435; 12372])])
             (VString (9312 :: tango))); reflexivity.
Defined.

(** * Further properties of the service *)

(** ** The decoder *)

Lemma atob_error (data : jsstring) (e : error) :
  atob data = Throw e -> e = DOMException "InvalidCharacterError".
Proof.
  unfold atob. destruct (_ =? 1); [now intros [= <-]|].
  destruct (base64_values _); [discriminate | now intros [= <-]].
Qed.

(** X1: [decodePCM] has exactly three ways to fail. It throws
    [InvalidCharacterError] when the payload is not base64, [RangeError]
    when the payload decodes to an odd number of bytes, and
    [NotSupportedError] when it decodes to no byte at all; it throws nothing
    else, and in every other case it returns a buffer. *)
Theorem decodePCM_failure_modes (base64Data : jsstring) :
  (forall e : error,
      decodePCM base64Data = Throw e ->
      (e = DOMException "InvalidCharacterError" /\ atob base64Data = Throw e) \/
      (e = RangeError /\
       exists bytes, atob base64Data = Ok bytes /\ Nat.odd (length bytes) = true) \/
      (e = DOMException "NotSupportedError" /\ atob base64Data = Ok [])) /\
  (forall bytes : jsstring,
      atob base64Data = Ok bytes -> Nat.even (length bytes) = true -> bytes <> [] ->
      exists buffer : AudioBuffer, decodePCM base64Data = Ok buffer).
Proof.
  rewrite decodePCM_eq. split.
  - intros e H. destruct (atob base64Data) as [bytes|e'] eqn:Hatob.
    + cbn [obind] in H. destruct (Nat.even (length bytes)) eqn:Heven.
      * destruct (Nat.eqb_spec (length bytes / 2) 0) as [Hz|Hz]; [|discriminate].
        injection H as <-. right. right. split; [reflexivity|].
        destruct bytes as [|a [|b bytes]]; [reflexivity | discriminate |].
        exfalso. cbn [length] in Hz.
        change (S (S (length bytes))) with (1 * 2 + length bytes)%nat in Hz.
        rewrite Nat.div_add_l in Hz by lia. lia.
      * injection H as <-. right. left. split; [reflexivity|].
        exists bytes. split; [reflexivity|]. now rewrite <- Nat.negb_even, Heven.
    + cbn [obind] in H. injection H as <-. left.
      split; [exact (atob_error _ _ Hatob) | reflexivity].
  - intros bytes -> Heven Hne. cbn [obind]. rewrite Heven.
    destruct (Nat.eqb_spec (length bytes / 2) 0) as [Hz|Hz]; [|eauto].
    exfalso. destruct bytes as [|a [|b bytes]]; [contradiction | discriminate |].
    cbn [length] in Hz.
    change (S (S (length bytes))) with (1 * 2 + length bytes)%nat in Hz.
    rewrite Nat.div_add_l in Hz by lia. lia.
Qed.

Lemma decodePCM_failure_modes_witness :
  ((DOMException "InvalidCharacterError" = DOMException "InvalidCharacterError" /\
    atob (lit "AAA!") = Throw (DOMException "InvalidCharacterError")) \/
   (DOMException "InvalidCharacterError" = RangeError /\
    exists bytes, atob (lit "AAA!") = Ok bytes /\ Nat.odd (length bytes) = true) \/
   (DOMException "InvalidCharacterError" = DOMException "NotSupportedError" /\
    atob (lit "AAA!") = Ok [])) /\
  (exists buffer : AudioBuffer, decodePCM (lit "AQACAA==") = Ok buffer).
Proof.
  split.
  - exact (proj1 (decodePCM_failure_modes (lit "AAA!"))
             (DOMException "InvalidCharacterError") eq_refl).
  - apply (proj2 (decodePCM_failure_modes (lit "AQACAA==")) [1; 0; 2; 0]);
      [reflexivity | reflexivity | discriminate].
Defined.

Lemma decodePCM_channel (base64Data bytes : jsstring) (buffer : AudioBuffer) :
  atob base64Data = Ok bytes -> decodePCM base64Data = Ok buffer ->
  AudioBuffer.channels buffer = [map pcm_sample (int16_elements bytes)] /\
  Forall is_byte bytes /\ Nat.even (length bytes) = true.
Proof.
  intros Hatob H. pose proof (atob_bytes _ _ Hatob) as Hbytes.
  rewrite decodePCM_eq, Hatob in H. cbn [obind] in H.
  destruct (Nat.even (length bytes)); [|discriminate].
  destruct (_ =? 0)%nat; [discriminate|].
  apply Ok_inj in H. subst buffer. cbn [AudioBuffer.channels].
  now rewrite (map_ToUint8_bytes _ Hbytes).
Qed.

(** X2: a decoded sample never reaches [+1.0]: every sample is a finite
    number [q] with [-1 <= q < 1], it is [-1] exactly when the 16-bit
    integer is [-32768], and [0] exactly when the integer is [0]. *)
Theorem decoded_samples_below_one (base64Data bytes : jsstring)
  (buffer : AudioBuffer) (samples : list spec_float) :
  atob base64Data = Ok bytes ->
  decodePCM base64Data = Ok buffer ->
  AudioBuffer.channels buffer = [samples] ->
  forall (i : nat) (x : spec_float),
    samples !! i = Some x ->
    exists q : Q,
      Number.toQ x = Some q /\ (-1 <= q)%Q /\ (q < 1)%Q /\
      ((q == -1)%Q <-> int16_le bytes i = -32768) /\
      ((q == 0)%Q <-> int16_le bytes i = 0).
Proof.
  intros Hatob Hdec Hch i x Hx.
  destruct (decodePCM_channel _ _ _ Hatob Hdec) as (Hch' & Hbytes & Heven).
  rewrite Hch in Hch'. injection Hch' as ->.
  assert (Hi : (2 * i + 1 < length bytes)%nat).
  { apply lookup_lt_Some in Hx.
    rewrite length_map, length_int16_elements in Hx.
    apply Nat.even_spec in Heven. destruct Heven as [n Hn]. rewrite Hn in *.
    rewrite Nat.mul_comm, Nat.div_mul in Hx by lia. lia. }
  rewrite list_lookup_fmap, (lookup_int16_elements _ _ Hbytes Hi) in Hx.
  injection Hx as <-.
  pose proof (int16_le_range bytes i Hbytes) as Hrange.
  destruct (pcm_sample_exact _ Hrange) as (q & Hq & Hexact).
  exists q. split; [exact Hq|]. rewrite Hexact.
  unfold Qle, Qlt, Qeq. cbn [Qnum Qden]. repeat split; lia.
Qed.

Lemma decoded_samples_below_one_witness :
  exists q : Q,
    Number.toQ (S754_finite false 16776704 (-24)) = Some q /\ (-1 <= q)%Q /\ (q < 1)%Q /\
    ((q == -1)%Q <-> int16_le [0; 0; 1; 0; 255; 127; 0; 128; 255; 255] 2 = -32768) /\
    ((q == 0)%Q <-> int16_le [0; 0; 1; 0; 255; 127; 0; 128; 255; 255] 2 = 0).
Proof.
  apply (decoded_samples_below_one (lit "AAABAP9/AID//w==")
           [0; 0; 1; 0; 255; 127; 0; 128; 255; 255]
           (AudioBuffer.mk 1 5 24000
              [[S754_zero false; S754_finite false 8388608 (-38);
                S754_finite false 16776704 (-24); S754_finite true 8388608 (-23);
                S754_finite true 8388608 (-38)]])
           [S754_zero false; S754_finite false 8388608 (-38);
            S754_finite false 16776704 (-24); S754_finite true 8388608 (-23);
            S754_finite true 8388608 (-38)]
           eq_refl eq_refl eq_refl 2%nat).
  reflexivity.
Defined.

(** ** Buffers and sequencing *)

Lemma well_formed_mono (samples : list spec_float) (rate : Z) :
  (1 <= length samples)%nat ->
  well_formed_buffer (AudioBuffer.mk 1 (length samples) rate [samples]).
Proof.
  intros H. unfold well_formed_buffer. cbn. repeat split; auto.
Qed.

(** X3: every buffer the service hands out is well formed: the channel
    count and the length it declares are those of its data, and it holds
    at least one sample. A sequenced buffer holds more than the
    [3 * 24000] samples of the pause. *)
Theorem returned_buffers_well_formed (env : environment) :
  (forall (base64Data : jsstring) (buffer : AudioBuffer),
      decodePCM base64Data = Ok buffer -> well_formed_buffer buffer) /\
  (forall (text : jsstring) (buffer : AudioBuffer),
      (run env (generatePronunciation text)).2 = Ok buffer ->
      well_formed_buffer buffer) /\
  (forall (schedule : list nat) (vocab sentence : jsstring) (buffer : AudioBuffer),
      (generateSequentialPronunciation env schedule vocab sentence).2 = Some (Ok buffer) ->
      well_formed_buffer buffer /\
      (3 * Z.to_nat 24000 + 2 <= AudioBuffer.length buffer)%nat).
Proof.
  assert (Hdec : forall (base64Data : jsstring) (buffer : AudioBuffer),
             decodePCM base64Data = Ok buffer -> well_formed_buffer buffer).
  { intros base64Data buffer H.
    destruct (decodePCM_shape _ _ H) as (samples & -> & Hpos).
    now apply well_formed_mono. }
  split; [exact Hdec | split].
  - intros text buffer H.
    destruct (generatePronunciation_decodes _ _ _ H) as (base64Audio & _ & Hd).
    exact (Hdec _ _ Hd).
  - intros schedule vocab sentence buffer H.
    destruct (generateSequentialPronunciation_sequences _ _ _ _ _ H) as (v & s & Hseq).
    destruct (sequence_buffers_decodes _ _ _ Hseq) as (samples1 & samples2 & H1 & H2 & ->).
    destruct (decodePCM_shape _ _ H1) as (s1 & Hs1 & Hpos1).
    destruct (decodePCM_shape _ _ H2) as (s2 & Hs2 & Hpos2).
    injection Hs1 as _ ->. injection Hs2 as _ ->.
    remember (3 * Z.to_nat 24000)%nat as gap.
    split.
    + unfold well_formed_buffer. cbn [AudioBuffer.numberOfChannels AudioBuffer.channels
                                        AudioBuffer.length length].
      split; [reflexivity | split; [|lia]].
      constructor; [|constructor].
      rewrite !length_app, length_replicate. lia.
    + cbn [AudioBuffer.length]. lia.
Qed.

Lemma returned_buffers_well_formed_witness :
  well_formed_buffer
    (AudioBuffer.mk 1 2 24000
       [[S754_finite false 8388608 (-38); S754_finite false 8388608 (-37)]]).
Proof.
  apply (proj1 (returned_buffers_well_formed (sample_env true)) (lit "AQACAA==")).
  reflexivity.
Defined.

(** X4: sequencing fails only when a clip fails to decode, and then with
    that clip's error: the vocab clip's if it fails, otherwise the sentence
    clip's. *)
Theorem sequence_buffers_errors (base64Vocab base64Sentence : jsstring) :
  (forall e : error,
      decodePCM base64Vocab = Throw e ->
      sequence_buffers base64Vocab base64Sentence = Throw e) /\
  (forall (buf1 : AudioBuffer) (e : error),
      decodePCM base64Vocab = Ok buf1 -> decodePCM base64Sentence = Throw e ->
      sequence_buffers base64Vocab base64Sentence = Throw e) /\
  (forall e : error,
      sequence_buffers base64Vocab base64Sentence = Throw e ->
      decodePCM base64Vocab = Throw e \/
      ((exists buf1, decodePCM base64Vocab = Ok buf1) /\
       decodePCM base64Sentence = Throw e)).
Proof.
  split; [|split].
  - intros e H. unfold sequence_buffers. now rewrite H.
  - intros buf1 e H1 H2. unfold sequence_buffers. now rewrite H1, H2.
  - intros e H.
    destruct (decodePCM base64Vocab) as [buf1|e1] eqn:H1.
    + destruct (decodePCM base64Sentence) as [buf2|e2] eqn:H2.
      * exfalso.
        destruct (decodePCM_shape _ _ H1) as (samples1 & -> & Hpos1).
        destruct (decodePCM_shape _ _ H2) as (samples2 & -> & Hpos2).
        rewrite (sequence_buffers_eq _ _ _ _ H1 H2 Hpos1) in H. discriminate.
      * right. split; [eauto|].
        unfold sequence_buffers in H. rewrite H1, H2 in H. exact H.
    + left. unfold sequence_buffers in H. rewrite H1 in H. exact H.
Qed.

Lemma sequence_buffers_errors_witness :
  sequence_buffers (lit "AAAB") (lit "AQACAA==") = Throw RangeError /\
  sequence_buffers (lit "AQACAA==") (lit "A") = Throw (DOMException "InvalidCharacterError").
Proof.
  split.
  - exact (proj1 (sequence_buffers_errors (lit "AAAB") (lit "AQACAA=="))
             RangeError eq_refl).
  - exact (proj1 (proj2 (sequence_buffers_errors (lit "AQACAA==") (lit "A")))
             (AudioBuffer.mk 1 2 24000
                [[S754_finite false 8388608 (-38); S754_finite false 8388608 (-37)]])
             (DOMException "InvalidCharacterError") eq_refl eq_refl).
Defined.

(** ** Speech synthesis: one clip *)

(** X5: [generatePronunciation text] sends exactly one request, the one for
    [text]. A rejected request fails with the rejection reason; an answer
    without audio, or with empty audio, fails with
    [Error("No audio data returned from API")]; otherwise the outcome is
    that of decoding the audio. A failure is logged once with
    [console.error] and rethrown unchanged; a success logs nothing. *)
Theorem generatePronunciation_contract (env : environment) (text : jsstring) :
  (exists log : list event,
      (run env (generatePronunciation text)).1
      = Called (speech_request text) :: Settled (speech_request text) :: log /\
      match (run env (generatePronunciation text)).2 with
      | Ok _ => log = []
      | Throw e =>
          log = [Called (console error_ "Error generating speech:" e);
                 Settled (console error_ "Error generating speech:" e)]
      end) /\
  (forall e : error,
      env _ (speech_request text) = Throw e ->
      (run env (generatePronunciation text)).2 = Throw e) /\
  (forall response : GenerateContentResponse,
      env _ (speech_request text) = Ok response ->
      GenerateContentResponse.audioData response = None \/
      GenerateContentResponse.audioData response = Some [] ->
      (run env (generatePronunciation text)).2
      = Throw (Error (lit "No audio data returned from API"))) /\
  (forall (response : GenerateContentResponse) (base64Audio : jsstring),
      env _ (speech_request text) = Ok response ->
      GenerateContentResponse.audioData response = Some base64Audio ->
      base64Audio <> [] ->
      (run env (generatePronunciation text)).2 = decodePCM base64Audio).
Proof.
  unfold generatePronunciation, fetchTTSBase64, await, throw, console_log.
  cbn [bind try_catch run].
  destruct (env _ (speech_request text)) as [response|e] eqn:Henv;
    cbn [bind try_catch run fst snd].
  - destruct (GenerateContentResponse.audioData response) as [[|c base64]|] eqn:Ha;
      cbn [bind try_catch run fst snd].
    + split; [eauto|]. split; [discriminate|]. split; [reflexivity|].
      intros r b [= <-]. rewrite Ha. intros [= <-]. contradiction.
    + destruct (decodePCM (c :: base64)) as [buffer|e] eqn:Hd;
        cbn [bind try_catch run fst snd].
      * split; [eauto|]. split; [discriminate|]. split.
        -- intros r [= <-]. rewrite Ha. intros [|]; discriminate.
        -- intros r b [= <-]. rewrite Ha. intros [= <-] _. now rewrite Hd.
      * split; [eauto|]. split; [discriminate|]. split.
        -- intros r [= <-]. rewrite Ha. intros [|]; discriminate.
        -- intros r b [= <-]. rewrite Ha. intros [= <-] _. now rewrite Hd.
    + split; [eauto|]. split; [discriminate|]. split; [reflexivity|].
      intros r b [= <-]. rewrite Ha. discriminate.
  - split; [eauto|]. split; [now intros e' [= <-]|]. split; discriminate.
Qed.

Lemma generatePronunciation_contract_witness :
  (run (sample_env true) (generatePronunciation tango)).2
  = decodePCM (lit "AAABAP9/AID//w==").
Proof.
  apply (proj2 (proj2 (proj2 (generatePronunciation_contract (sample_env true) tango)))
           (GenerateContentResponse.mk None (Some (lit "AAABAP9/AID//w==")))).
  - reflexivity.
  - reflexivity.
  - discriminate.
Defined.

(** ** Speech synthesis: two clips *)

Section PromiseAllFailure.

Context {A B : Type} (env : environment).

Lemma resume_settles {C : Type} (p : async C) (a : C) :
  settles_to env p a ->
  settles_to env (resume env p).2 a /\ rejection (resume env p).2 = None.
Proof.
  destruct p as [o|T c k]; cbn [settles_to resume snd].
  - intros ->. split; reflexivity.
  - intros ->. split; reflexivity.
Qed.

Lemma both_fulfilled_first_pending {T : Type} (c : call T) (k : outcome T -> async A)
  (p2 : async B) :
  both_fulfilled (Await c k) p2 = None.
Proof. reflexivity. Qed.

Lemma both_fulfilled_second_pending {T : Type} (p1 : async A) (c : call T)
  (k : outcome T -> async B) :
  both_fulfilled p1 (Await c k) = None.
Proof. now destruct p1 as [[a|e]|T' c' k']. Qed.

Lemma Promise_all_wait_first_fails {T : Type} (schedule : list nat)
  (c : call T) (k : outcome T -> async A) (e : error) (p2 : async B) (b : B) :
  In 0%nat schedule -> k (env _ c) = Return (Throw e) -> settles_to env p2 b ->
  (Promise_all_wait env schedule (Await c k) p2).2 = Some (Throw e).
Proof.
  intros Hin Hk. revert p2.
  induction schedule as [|i schedule IH]; intros p2 Hp2; [destruct Hin|].
  cbn [Promise_all_wait]. rewrite both_fulfilled_first_pending.
  destruct i as [|[|i]].
  - cbn [resume]. rewrite Hk. reflexivity.
  - destruct Hin as [Hin|Hin]; [discriminate|].
    destruct (resume_settles p2 b Hp2) as [Hs Hr].
    destruct (resume env p2) as [trace p2']. cbn [snd] in Hs, Hr. rewrite Hr.
    specialize (IH Hin p2' Hs).
    destruct (Promise_all_wait env schedule (Await c k) p2') as [trace' r].
    exact IH.
  - destruct Hin as [Hin|Hin]; [discriminate|]. exact (IH Hin p2 Hp2).
Qed.

Lemma Promise_all_wait_second_fails {T : Type} (schedule : list nat)
  (p1 : async A) (a : A) (c : call T) (k : outcome T -> async B) (e : error) :
  In 1%nat schedule -> k (env _ c) = Return (Throw e) -> settles_to env p1 a ->
  (Promise_all_wait env schedule p1 (Await c k)).2 = Some (Throw e).
Proof.
  intros Hin Hk. revert p1.
  induction schedule as [|i schedule IH]; intros p1 Hp1; [destruct Hin|].
  cbn [Promise_all_wait]. rewrite both_fulfilled_second_pending.
  destruct i as [|[|i]].
  - destruct Hin as [Hin|Hin]; [discriminate|].
    destruct (resume_settles p1 a Hp1) as [Hs Hr].
    destruct (resume env p1) as [trace p1']. cbn [snd] in Hs, Hr. rewrite Hr.
    specialize (IH Hin p1' Hs).
    destruct (Promise_all_wait env schedule p1' (Await c k)) as [trace' r].
    exact IH.
  - cbn [resume]. rewrite Hk. reflexivity.
  - destruct Hin as [Hin|Hin]; [discriminate|]. exact (IH Hin p1 Hp1).
Qed.



End PromiseAllFailure.

Lemma fetchTTSBase64_settles (env : environment) (text : jsstring)
  (o : outcome jsstring) :
  (run env (fetchTTSBase64 text)).2 = o ->
  exists k : outcome GenerateContentResponse -> async jsstring,
    fetchTTSBase64 text = Await (speech_request text) k /\
    k (env _ (speech_request text)) = Return o.
Proof.
  rewrite run_fetchTTSBase64. cbn [snd]. intros <-.
  destruct (fetchTTSBase64_await text) as (k & Hk & Hr).
  exists k. split; [exact Hk | apply Hr].
Qed.

Lemma generateSequentialPronunciation_settled (env : environment)
  (schedule : list nat) (vocab sentence : jsstring)
  (k1 k2 : outcome GenerateContentResponse -> async jsstring) :
  fetchTTSBase64 vocab = Await (speech_request vocab) k1 ->
  fetchTTSBase64 sentence = Await (speech_request sentence) k2 ->
  (generateSequentialPronunciation env schedule vocab sentence).2 =
  match (Promise_all_wait env schedule (Await (speech_request vocab) k1)
           (Await (speech_request sentence) k2)).2 with
  | None => None
  | Some (Ok (base64Vocab, base64Sentence)) =>
      Some (sequence_buffers base64Vocab base64Sentence)
  | Some (Throw e) => Some (Throw e)
  end.
Proof.
  intros H1 H2. unfold generateSequentialPronunciation. rewrite H1, H2.
  unfold Promise_all. cbn [rejection].
  destruct (Promise_all_wait env schedule _ _) as [trace [[[v s]|e]|]]; cbn [snd].
  - rewrite run_try_catch. cbn [run obind].
    destruct (sequence_buffers v s); reflexivity.
  - reflexivity.
  - reflexivity.
Qed.

(** X6: when a synthesis request fails, [generateSequentialPronunciation]
    fails with that request's error as soon as its answer arrives, whether
    or not the other answer has arrived. When both requests fail, the error
    reported is that of the request that settles first: unlike a result,
    it depends on the order of arrival. *)
Theorem sequential_failure_is_first_to_settle (env : environment)
  (vocab sentence : jsstring) :
  (forall (schedule : list nat) (e : error) (base64Sentence : jsstring),
      In 0%nat schedule ->
      (run env (fetchTTSBase64 vocab)).2 = Throw e ->
      (run env (fetchTTSBase64 sentence)).2 = Ok base64Sentence ->
      (generateSequentialPronunciation env schedule vocab sentence).2
      = Some (Throw e)) /\
  (forall (schedule : list nat) (e : error) (base64Vocab : jsstring),
      In 1%nat schedule ->
      (run env (fetchTTSBase64 vocab)).2 = Ok base64Vocab ->
      (run env (fetchTTSBase64 sentence)).2 = Throw e ->
      (generateSequentialPronunciation env schedule vocab sentence).2
      = Some (Throw e)) /\
  (forall (rest : list nat) (e1 e2 : error),
      (run env (fetchTTSBase64 vocab)).2 = Throw e1 ->
      (run env (fetchTTSBase64 sentence)).2 = Throw e2 ->
      (generateSequentialPronunciation env (0%nat :: rest) vocab sentence).2
      = Some (Throw e1) /\
      (generateSequentialPronunciation env (1%nat :: rest) vocab sentence).2
      = Some (Throw e2)).
Proof.
  split; [|split].
  - intros schedule e b Hin H1 H2.
    destruct (fetchTTSBase64_settles _ _ _ H1) as (k1 & Hk1 & Hr1).
    destruct (fetchTTSBase64_settles _ _ _ H2) as (k2 & Hk2 & Hr2).
    rewrite (generateSequentialPronunciation_settled _ _ _ _ k1 k2 Hk1 Hk2).
    now rewrite (Promise_all_wait_first_fails env schedule _ k1 e
                   (Await (speech_request sentence) k2) b Hin Hr1 Hr2).
  - intros schedule e a Hin H1 H2.
    destruct (fetchTTSBase64_settles _ _ _ H1) as (k1 & Hk1 & Hr1).
    destruct (fetchTTSBase64_settles _ _ _ H2) as (k2 & Hk2 & Hr2).
    rewrite (generateSequentialPronunciation_settled _ _ _ _ k1 k2 Hk1 Hk2).
    now rewrite (Promise_all_wait_second_fails env schedule
                   (Await (speech_request vocab) k1) a _ k2 e Hin Hr2 Hr1).
  - intros rest e1 e2 H1 H2.
    destruct (fetchTTSBase64_settles _ _ _ H1) as (k1 & Hk1 & Hr1).
    destruct (fetchTTSBase64_settles _ _ _ H2) as (k2 & Hk2 & Hr2).
    rewrite !(generateSequentialPronunciation_settled _ _ _ _ k1 k2 Hk1 Hk2).
    cbn [Promise_all_wait both_fulfilled resume]. rewrite Hr1, Hr2. split; reflexivity.
Qed.

Lemma sequential_failure_is_first_to_settle_witness :
  (generateSequentialPronunciation (sample_speech_env false true) [1%nat; 0%nat]
     tango reibun).2 = Some (Throw (Reason 1)) /\
  (generateSequentialPronunciation (sample_speech_env false false) (0%nat :: [1%nat])
     tango reibun).2 = Some (Throw (Reason 1)) /\
  (generateSequentialPronunciation (sample_speech_env false false) (1%nat :: [0%nat])
     tango reibun).2 = Some (Throw (Reason 2)).
Proof.
  split.
  - apply (proj1 (sequential_failure_is_first_to_settle (sample_speech_env false true)
                    tango reibun) [1%nat; 0%nat] (Reason 1) (lit "AQACAA=="));
      [simpl; auto | reflexivity | reflexivity].
  - apply (proj2 (proj2 (sequential_failure_is_first_to_settle
                           (sample_speech_env false false) tango reibun))
             [1%nat] (Reason 1) (Reason 2)); reflexivity.
Defined.



(** ** The resource fetcher: what it calls *)

Lemma run_bind_trace {A B : Type} (env : environment) (p : async A) (f : A -> async B) :
  (run env (bind p f)).1 =
  (run env p).1 ++ match (run env p).2 with
                   | Ok a => (run env (f a)).1
                   | Throw _ => []
                   end.
Proof.
  rewrite run_bind. destruct (run env p) as [trace [a|e]]; cbn [fst snd].
  - now destruct (run env (f a)).
  - now rewrite app_nil_r.
Qed.

Lemma run_try_catch_trace {A : Type} (env : environment) (p : async A)
  (handler : error -> async A) :
  (run env (try_catch p handler)).1 =
  (run env p).1 ++ match (run env p).2 with
                   | Ok _ => []
                   | Throw e => (run env (handler e)).1
                   end.
Proof.
  rewrite run_try_catch. destruct (run env p) as [trace [a|e]]; cbn [fst snd].
  - now rewrite app_nil_r.
  - now destruct (run env (handler e)).
Qed.

Lemma transport_path_observed (env : environment) (target failure : jsstring) :
  let trace :=
    (run env
       (let* response := await (fetch target) in
        if negb (Response.ok response)
        then throw (Error (failure ++ Response.statusText response))
        else
          let* blob := await (Response_blob response) in
          blobToBase64 blob)%async).1 in
  fetched_urls trace = [target] /\ model_requests trace = [] /\ console_output trace = [].
Proof.
  unfold blobToBase64, await, throw. cbn [bind run].
  destruct (env _ (fetch target)) as [response|e]; cbn [bind run fst];
    [|repeat split].
  destruct (negb (Response.ok response)); cbn [bind run fst]; [repeat split|].
  destruct (env _ (Response_blob response)) as [blob|e]; cbn [bind run fst];
    [|repeat split].
  destruct (env _ (FileReader_readAsDataURL blob)) as [base64String|e];
    cbn [bind run fst]; repeat split.
Qed.

Lemma fileToGenerativePart_observed (env : environment) (url : jsstring) :
  let trace := (run env (fileToGenerativePart url)).1 in
  model_requests trace = [] /\
  match retrieve_direct env url with
  | Ok _ => fetched_urls trace = [url] /\ console_output trace = []
  | Throw e =>
      match encodeURIComponent url with
      | Throw e' =>
          fetched_urls trace = [url] /\
          console_output trace =
            [(warn, "Direct fetch failed (likely CORS), attempting via CORS proxy..."%string, e);
             (error_, "Proxy fetch failed:"%string, e')]
      | Ok encoded =>
          fetched_urls trace = [url; relay_url encoded] /\
          console_output trace =
            (warn, "Direct fetch failed (likely CORS), attempting via CORS proxy..."%string, e)
            :: match retrieve env (relay_url encoded) (lit "Proxy fetch failed: ") with
               | Ok _ => []
               | Throw e2 => [(error_, "Proxy fetch failed:"%string, e2)]
               end
      end
  end.
Proof.
  cbn zeta. unfold fileToGenerativePart, retrieve_direct, relay_url.
  rewrite run_try_catch_trace, run_transport_path.
  destruct (transport_path_observed env url (lit "Direct fetch failed: "))
    as (Hf & Hm & Hc).
  unfold fetched_urls, model_requests, console_output in *.
  rewrite !omap_app, Hf, Hm, Hc.
  destruct (retrieve env url _) as [data|e]; [rewrite !app_nil_r; auto|].
  rewrite run_bind_trace. cbn [console_log run fst snd].
  rewrite run_try_catch_trace, run_bind_trace, run_bind_outcome.
  cbn [run fst snd].
  destruct (encodeURIComponent url) as [encoded|e']; cbn [obind].
  - rewrite run_transport_path.
    destruct (transport_path_observed env (lit "https://corsproxy.io/?" ++ encoded)
                (lit "Proxy fetch failed: ")) as (Hf' & Hm' & Hc').
    unfold fetched_urls, model_requests, console_output in *.
    rewrite !omap_app, Hf', Hm', Hc'.
    destruct (retrieve env _ _) as [data|e2]; cbn; auto.
  - cbn. auto.
Qed.

(** X8: the fetcher fetches the image URL first and never more than two
    URLs. When the direct path succeeds it does not contact the relay and
    logs nothing. When the direct path fails it logs one warning carrying
    the failure and fetches exactly
    [https://corsproxy.io/?] followed by [encodeURIComponent(url)]; when the
    URL cannot be encoded (a lone surrogate) the relay is not contacted at
    all and the fetcher throws its retrieval error. *)
Theorem fetcher_fetches_direct_then_relay (env : environment) (url : jsstring) :
  (forall data : option jsstring,
      retrieve_direct env url = Ok data ->
      fetched_urls (run env (fileToGenerativePart url)).1 = [url] /\
      console_output (run env (fileToGenerativePart url)).1 = []) /\
  (forall (e : error) (encoded : jsstring),
      retrieve_direct env url = Throw e ->
      encodeURIComponent url = Ok encoded ->
      fetched_urls (run env (fileToGenerativePart url)).1 = [url; relay_url encoded] /\
      exists rest : list (console_method * string * error),
        console_output (run env (fileToGenerativePart url)).1
        = (warn, "Direct fetch failed (likely CORS), attempting via CORS proxy..."%string, e)
          :: rest) /\
  (forall e e' : error,
      retrieve_direct env url = Throw e ->
      encodeURIComponent url = Throw e' ->
      fetched_urls (run env (fileToGenerativePart url)).1 = [url] /\
      (run env (fileToGenerativePart url)).2 = Throw (Error retrieval_message)).
Proof.
  pose proof (fileToGenerativePart_observed env url) as [_ H]. cbn zeta in H.
  split; [|split].
  - intros data Hd. now rewrite Hd in H.
  - intros e encoded Hd He. rewrite Hd, He in H. destruct H as [Hf Hc].
    split; [exact Hf | eauto].
  - intros e e' Hd He. rewrite Hd, He in H. destruct H as [Hf Hc].
    split; [exact Hf|].
    rewrite run_fileToGenerativePart, Hd. unfold retrieve_relay. now rewrite He.
Qed.

Lemma fetcher_fetches_direct_then_relay_witness :
  fetched_urls (run (sample_env true) (fileToGenerativePart sample_url)).1
  = [sample_url; relay_url (lit "https%3A%2F%2Fexample.org%2Fcard.jpg")] /\
  fetched_urls (run (sample_env false) (fileToGenerativePart [55296])).1 = [[55296]] /\
  (run (sample_env false) (fileToGenerativePart [55296])).2
  = Throw (Error retrieval_message).
Proof.
  split.
  - apply (proj1 (proj2 (fetcher_fetches_direct_then_relay (sample_env true) sample_url))
             (Reason 0) (lit "https%3A%2F%2Fexample.org%2Fcard.jpg")); reflexivity.
  - apply (proj2 (proj2 (fetcher_fetches_direct_then_relay (sample_env false) [55296]))
             (Error (lit "Direct fetch failed: Forbidden")) URIError); reflexivity.
Defined.

(** ** The relay URL *)

Ltac bool_to_Z :=
  rewrite ?orb_true_iff, ?andb_true_iff, ?orb_false_iff, ?andb_false_iff,
    ?Z.leb_le, ?Z.eqb_eq, ?Z.leb_gt, ?Z.eqb_neq, ?Z.ltb_lt, ?Z.ltb_ge in *.

Lemma hex_digit_unreserved (d : Z) :
  0 <= d < 16 -> is_uri_unreserved (hex_digit d) = true.
Proof.
  intros Hd. unfold hex_digit, is_uri_unreserved.
  destruct (d <? 10) eqn:E; bool_to_Z; lia.
Qed.

Lemma percent_encode_chars (byte : Z) :
  is_byte byte -> Forall is_component_char (percent_encode byte).
Proof.
  unfold is_byte. intros Hb. unfold percent_encode.
  constructor; [now right|].
  constructor.
  { left. apply hex_digit_unreserved.
    split; [apply Z.div_pos; lia | apply Z.div_lt_upper_bound; lia]. }
  constructor; [|constructor].
  left. apply hex_digit_unreserved. apply Z.mod_pos_bound. lia.
Qed.

Lemma utf8_encode_bytes (cp : Z) :
  0 <= cp < 1114112 -> Forall is_byte (utf8_encode cp).
Proof.
  intros Hcp. unfold utf8_encode, is_byte.
  destruct (cp <? 128) eqn:E1; [bool_to_Z; repeat constructor; lia|].
  destruct (cp <? 2048) eqn:E2.
  { bool_to_Z. pose proof (Z.mod_pos_bound cp 64 ltac:(lia)).
    assert (0 <= cp / 64 < 32)
      by (split; [apply Z.div_pos; lia | apply Z.div_lt_upper_bound; lia]).
    repeat constructor; lia. }
  destruct (cp <? 65536) eqn:E3.
  { bool_to_Z. pose proof (Z.mod_pos_bound cp 64 ltac:(lia)).
    pose proof (Z.mod_pos_bound (cp / 64) 64 ltac:(lia)).
    assert (0 <= cp / 4096 < 16)
      by (split; [apply Z.div_pos; lia | apply Z.div_lt_upper_bound; lia]).
    repeat constructor; lia. }
  bool_to_Z. pose proof (Z.mod_pos_bound cp 64 ltac:(lia)).
  pose proof (Z.mod_pos_bound (cp / 64) 64 ltac:(lia)).
  pose proof (Z.mod_pos_bound (cp / 4096) 64 ltac:(lia)).
  assert (0 <= cp / 262144 < 8)
    by (split; [apply Z.div_pos; lia | apply Z.div_lt_upper_bound; lia]).
  repeat constructor; lia.
Qed.

Lemma escape_chars (cp : Z) :
  0 <= cp < 1114112 ->
  Forall is_component_char (concat (map percent_encode (utf8_encode cp))).
Proof.
  intros Hcp. pose proof (utf8_encode_bytes cp Hcp) as Hb.
  induction Hb as [|b bs Hb _ IH]; cbn [map concat]; [constructor|].
  apply Forall_app. split; [now apply percent_encode_chars | exact IH].
Qed.

Lemma encodeURIComponent_chars_bounded (n : nat) :
  forall s out : jsstring,
    (length s <= n)%nat -> Forall is_code_unit s ->
    encodeURIComponent s = Ok out -> Forall is_component_char out.
Proof.
  induction n as [|n IH]; intros s out Hlen Hs H.
  - destruct s; [|cbn in Hlen; lia]. cbn in H. injection H as <-. constructor.
  - destruct s as [|c s]; [cbn in H; injection H as <-; constructor|].
    inversion Hs as [|? ? Hc Hs']; subst. unfold is_code_unit in Hc.
    cbn [encodeURIComponent] in H. cbn [length] in Hlen.
    destruct (is_uri_unreserved c) eqn:Hu.
    { destruct (encodeURIComponent s) as [rest|e] eqn:Hr; [|discriminate].
      cbn [obind] in H. injection H as <-.
      constructor; [now left | apply (IH s rest); auto; lia]. }
    destruct (is_low_surrogate c) eqn:Hlow; [discriminate|].
    destruct (is_high_surrogate c) eqn:Hhigh.
    { destruct s as [|c2 s]; [discriminate|].
      inversion Hs' as [|? ? Hc2 Hs'']; subst.
      destruct (is_low_surrogate c2) eqn:Hlow2; [|discriminate].
      destruct (encodeURIComponent s) as [rest|e] eqn:Hr; [|discriminate].
      cbn [obind] in H. injection H as <-.
      apply Forall_app. split.
      - apply escape_chars. unfold is_high_surrogate, is_low_surrogate in *.
        bool_to_Z. lia.
      - apply (IH s rest); auto. cbn [length] in Hlen. lia. }
    destruct (encodeURIComponent s) as [rest|e] eqn:Hr; [|discriminate].
    cbn [obind] in H. injection H as <-.
    apply Forall_app. split.
    + apply escape_chars. lia.
    + apply (IH s rest); auto. lia.
Qed.

(** X9: the component the fetcher appends to the relay's address consists
    of unreserved characters and percent escapes only. No [&], [#], [?],
    [/], [=] or space of the image URL reaches the relay URL as such, so
    the image URL stays one query parameter. *)
Theorem relay_url_component_is_escaped (url encoded : jsstring) :
  Forall is_code_unit url ->
  encodeURIComponent url = Ok encoded ->
  Forall is_component_char encoded /\
  Forall (fun c => c <> 38 /\ c <> 35 /\ c <> 63 /\ c <> 47 /\ c <> 61 /\ c <> 32)
    encoded.
Proof.
  intros Hurl Henc.
  pose proof (encodeURIComponent_chars_bounded (length url) url encoded
                (Nat.le_refl _) Hurl Henc) as H.
  split; [exact H|].
  eapply Forall_impl; [exact H|].
  intros c [Hc| ->]; [|lia].
  repeat split; intros ->; discriminate.
Qed.

Lemma relay_url_component_is_escaped_witness :
  Forall is_component_char (lit "a%20b%26c%3Dd%E2%91%A0") /\
  Forall (fun c => c <> 38 /\ c <> 35 /\ c <> 63 /\ c <> 47 /\ c <> 61 /\ c <> 32)
    (lit "a%20b%26c%3Dd%E2%91%A0").
Proof.
  apply (relay_url_component_is_escaped (lit "a b&c=d" ++ [9312])).
  - unfold is_code_unit. repeat constructor; lia.
  - reflexivity.
Defined.

(** ** Reading the body as base64 *)

Lemma split_comma_no_comma (s : jsstring) :
  ~ In 44 s -> split_comma s = [s].
Proof.
  induction s as [|c s IH]; intros Hs; [reflexivity|].
  cbn [split_comma]. destruct (Z.eqb_spec c 44) as [->|Hc].
  - exfalso. apply Hs. now left.
  - rewrite IH; [reflexivity|]. intros H. apply Hs. now right.
Qed.

Lemma split_comma_app (a rest : jsstring) :
  ~ In 44 a -> split_comma (a ++ 44 :: rest) = a :: split_comma rest.
Proof.
  induction a as [|c a IH]; intros Ha; [reflexivity|].
  cbn [app split_comma]. destruct (Z.eqb_spec c 44) as [->|Hc].
  - exfalso. apply Ha. now left.
  - rewrite IH; [reflexivity|]. intros H. apply Ha. now right.
Qed.

Lemma run_blobToBase64 (env : environment) (blob : Blob) :
  run env (blobToBase64 blob) =
  ([Called (FileReader_readAsDataURL blob); Settled (FileReader_readAsDataURL blob)],
   (let! base64String := env _ (FileReader_readAsDataURL blob) in
    Ok (split_comma base64String !! 1%nat))%outcome).
Proof.
  unfold blobToBase64, await. cbn [bind run].
  destruct (env _ (FileReader_readAsDataURL blob)); reflexivity.
Qed.

(** X10: [blobToBase64] resolves with the text between the first and the
    second comma of the data URL the reader produced: the base64 payload
    when the media type holds no comma. For a data URL without a comma it
    resolves with [undefined] instead of a string, and a reader error
    rejects it with that error. *)
Theorem blobToBase64_takes_second_piece (env : environment) (blob : Blob) :
  (forall header payload tail : jsstring,
      env _ (FileReader_readAsDataURL blob) = Ok (header ++ 44 :: payload ++ tail) ->
      ~ In 44 header -> ~ In 44 payload ->
      tail = [] \/ (exists rest, tail = 44 :: rest) ->
      (run env (blobToBase64 blob)).2 = Ok (Some payload)) /\
  (forall dataURL : jsstring,
      env _ (FileReader_readAsDataURL blob) = Ok dataURL -> ~ In 44 dataURL ->
      (run env (blobToBase64 blob)).2 = Ok None) /\
  (forall e : error,
      env _ (FileReader_readAsDataURL blob) = Throw e ->
      (run env (blobToBase64 blob)).2 = Throw e).
Proof.
  rewrite run_blobToBase64. cbn [snd]. split; [|split].
  - intros header payload tail -> Hh Hp Ht. cbn [obind].
    rewrite (split_comma_app _ _ Hh).
    destruct Ht as [->|[rest ->]].
    + rewrite app_nil_r, (split_comma_no_comma _ Hp). reflexivity.
    + rewrite (split_comma_app _ _ Hp). reflexivity.
  - intros dataURL -> Hd. cbn [obind]. now rewrite (split_comma_no_comma _ Hd).
  - now intros e ->.
Qed.

Lemma blobToBase64_takes_second_piece_witness :
  (run (sample_env true) (blobToBase64 (BlobHandle 1))).2 = Ok (Some (lit "/9j/4AAQ")).
Proof.
  apply (proj1 (blobToBase64_takes_second_piece (sample_env true) (BlobHandle 1))
           (lit "data:image/jpeg;base64") (lit "/9j/4AAQ") []).
  - reflexivity.
  - cbn. intuition discriminate.
  - cbn. intuition discriminate.
  - now left.
Defined.

(** ** The analysis: requests, log and failures *)

Section AnalysisCalls.

Variable env : environment.
Variable JSON_parse : jsstring -> outcome value.
Variable Number_toString : spec_float -> jsstring.

Lemma analyzeJapaneseImage_trace_eq (imageUrl : jsstring) :
  (run env (analyzeJapaneseImage JSON_parse Number_toString imageUrl)).1 =
  (run env (fileToGenerativePart imageUrl)).1
  ++ match (run env (fileToGenerativePart imageUrl)).2 with
     | Ok base64Data =>
         [Called (analysis_request base64Data); Settled (analysis_request base64Data)]
     | Throw _ => []
     end
  ++ match (run env (analyzeJapaneseImage JSON_parse Number_toString imageUrl)).2 with
     | Ok _ => []
     | Throw e =>
         [Called (console error_ "Error analyzing image:" e);
          Settled (console error_ "Error analyzing image:" e)]
     end.
Proof.
  unfold analyzeJapaneseImage.
  rewrite run_try_catch_trace, run_try_catch_outcome, run_bind_trace, run_bind_outcome.
  destruct (run env (fileToGenerativePart imageUrl)) as [trace [data|e]];
    cbn [fst snd obind]; [|cbn; now rewrite app_nil_r].
  unfold await, throw, console_log. cbn [bind run fst snd].
  destruct (env _ (analysis_request data)) as [response|e]; cbn [run fst snd bind].
  - destruct (GenerateContentResponse.text response) as [[|c text]|];
      cbn [run fst snd bind]; try (now rewrite <- app_assoc).
    destruct (analysis_of_text JSON_parse Number_toString (c :: text));
      cbn [run fst snd bind]; now rewrite <- app_assoc.
  - now rewrite <- app_assoc.
Qed.

(** X11: [analyzeJapaneseImage] sends the model exactly one request, holding
    the retrieved image data, and none at all when the image could not be
    retrieved. Whatever makes it fail, it logs that error once with
    [console.error], after everything else, and throws it unchanged. *)
Theorem analysis_requests_and_log (imageUrl : jsstring) :
  (forall base64Data : option jsstring,
      (run env (fileToGenerativePart imageUrl)).2 = Ok base64Data ->
      model_requests (run env (analyzeJapaneseImage JSON_parse Number_toString imageUrl)).1
      = [AnalyzeImage "gemini-2.5-flash" "image/jpeg" base64Data]) /\
  (forall e : error,
      (run env (fileToGenerativePart imageUrl)).2 = Throw e ->
      model_requests (run env (analyzeJapaneseImage JSON_parse Number_toString imageUrl)).1
      = [] /\
      (run env (analyzeJapaneseImage JSON_parse Number_toString imageUrl)).2 = Throw e) /\
  (forall e : error,
      (run env (analyzeJapaneseImage JSON_parse Number_toString imageUrl)).2 = Throw e ->
      exists before : list event,
        (run env (analyzeJapaneseImage JSON_parse Number_toString imageUrl)).1
        = before ++ [Called (console error_ "Error analyzing image:" e);
                     Settled (console error_ "Error analyzing image:" e)] /\
        Forall (fun entry => entry.1.2 <> "Error analyzing image:"%string)
          (console_output before)).
Proof.
  pose proof (fileToGenerativePart_observed env imageUrl) as [Hm Hobs].
  cbn zeta in Hm, Hobs.
  split; [|split].
  - intros data Hd. rewrite analyzeJapaneseImage_trace_eq, Hd.
    unfold model_requests in *. rewrite !omap_app, Hm.
    destruct (run env (analyzeJapaneseImage _ _ _)).2; reflexivity.
  - intros e He. split.
    + rewrite analyzeJapaneseImage_trace_eq, He.
      unfold model_requests in *. rewrite !omap_app, Hm.
      destruct (run env (analyzeJapaneseImage _ _ _)).2; reflexivity.
    + now rewrite run_analyzeJapaneseImage, He.
  - intros e He. rewrite analyzeJapaneseImage_trace_eq, He.
    eexists. split; [now rewrite app_assoc|].
    unfold console_output in *. rewrite omap_app. apply Forall_app. split.
    + destruct (retrieve_direct env imageUrl) as [d|e1].
      * destruct Hobs as [_ ->]. constructor.
      * destruct (encodeURIComponent imageUrl) as [enc|e2].
        -- destruct Hobs as [_ ->].
           destruct (retrieve env _ _); repeat constructor; discriminate.
        -- destruct Hobs as [_ ->]. repeat constructor; discriminate.
    + destruct (run env (fileToGenerativePart imageUrl)).2; repeat constructor.
Qed.

(** X12: once the image is retrieved, [analyzeJapaneseImage] fails in four
    ways. A rejected request fails with the rejection reason; an answer
    without text, or with empty text, with
    [Error("No response text generated")]; text that does not parse with
    the parser's error; and a parsed answer whose [vocab] is missing or is
    not a string with a [TypeError]. *)
Theorem analysis_failures (imageUrl : jsstring) (base64Data : option jsstring) :
  (run env (fileToGenerativePart imageUrl)).2 = Ok base64Data ->
  (forall e : error,
      env _ (analysis_request base64Data) = Throw e ->
      (run env (analyzeJapaneseImage JSON_parse Number_toString imageUrl)).2 = Throw e) /\
  (forall response : GenerateContentResponse,
      env _ (analysis_request base64Data) = Ok response ->
      GenerateContentResponse.text response = None \/
      GenerateContentResponse.text response = Some [] ->
      (run env (analyzeJapaneseImage JSON_parse Number_toString imageUrl)).2
      = Throw (Error (lit "No response text generated"))) /\
  (forall (response : GenerateContentResponse) (text : jsstring) (e : error),
      env _ (analysis_request base64Data) = Ok response ->
      GenerateContentResponse.text response = Some text -> text <> [] ->
      JSON_parse text = Throw e ->
      (run env (analyzeJapaneseImage JSON_parse Number_toString imageUrl)).2 = Throw e) /\
  (forall (response : GenerateContentResponse) (text : jsstring) (parsed : value),
      env _ (analysis_request base64Data) = Ok response ->
      GenerateContentResponse.text response = Some text -> text <> [] ->
      JSON_parse text = Ok parsed ->
      (forall vocab : jsstring, Get parsed (lit "vocab") <> Ok (VString vocab)) ->
      (run env (analyzeJapaneseImage JSON_parse Number_toString imageUrl)).2
      = Throw TypeError).
Proof.
  intros Hd. rewrite run_analyzeJapaneseImage, Hd. cbn [obind].
  unfold analysis_of_response. split; [|split; [|split]].
  - now intros e ->.
  - intros response ->. cbn [obind]. intros [->| ->]; reflexivity.
  - intros response text e ->. cbn [obind]. intros -> Hne Hp.
    destruct text as [|c text]; [contradiction|].
    unfold analysis_of_text. now rewrite Hp.
  - intros response text parsed ->. cbn [obind]. intros -> Hne Hp Hv.
    destruct text as [|c text]; [contradiction|].
    unfold analysis_of_text. rewrite Hp. cbn [obind].
    destruct parsed as [| | | | | |properties]; cbn [Get obind cleanVocab_of];
      try reflexivity.
    destruct (own_property (lit "vocab") properties) as [[| | | |vocab| |]|] eqn:Hown;
      cbn [default cleanVocab_of obind]; try reflexivity.
    exfalso. apply (Hv vocab). cbn [Get]. now rewrite Hown.
Qed.

End AnalysisCalls.

Lemma analysis_requests_and_log_witness :
  model_requests
    (run (sample_env true)
       (analyzeJapaneseImage sample_JSON_parse sample_Number_toString sample_url)).1
  = [AnalyzeImage "gemini-2.5-flash" "image/jpeg" (Some (lit "/9j/4AAQ"))] /\
  model_requests
    (run (sample_env false)
       (analyzeJapaneseImage sample_JSON_parse sample_Number_toString sample_url)).1
  = [].
Proof.
  split.
  - apply (proj1 (analysis_requests_and_log (sample_env true) sample_JSON_parse
                    sample_Number_toString sample_url)).
    vm_compute. reflexivity.
  - apply (proj1 (proj2 (analysis_requests_and_log (sample_env false) sample_JSON_parse
                           sample_Number_toString sample_url))
             (Error retrieval_message)).
    vm_compute. reflexivity.
Defined.

Lemma analysis_failures_witness :
  (run (sample_env true)
     (analyzeJapaneseImage (fun _ => Throw SyntaxError) sample_Number_toString
        sample_url)).2 = Throw SyntaxError /\
  (run (sample_env true)
     (analyzeJapaneseImage (fun _ => Ok (VObject [(lit "sentence", VString reibun)]))
        sample_Number_toString sample_url)).2 = Throw TypeError.
Proof.
  split.
  - apply (proj1 (proj2 (proj2 (analysis_failures (sample_env true)
                                  (fun _ => Throw SyntaxError) sample_Number_toString
                                  sample_url (Some (lit "/9j/4AAQ"))
                                  ltac:(vm_compute; reflexivity))))
             (GenerateContentResponse.mk (Some sample_text) None) sample_text);
      [reflexivity | reflexivity | discriminate | reflexivity].
  - apply (proj2 (proj2 (proj2 (analysis_failures (sample_env true)
                                  (fun _ => Ok (VObject [(lit "sentence", VString reibun)]))
                                  sample_Number_toString
                                  sample_url (Some (lit "/9j/4AAQ"))
                                  ltac:(vm_compute; reflexivity))))
             (GenerateContentResponse.mk (Some sample_text) None) sample_text
             (VObject [(lit "sentence", VString reibun)]));
      [reflexivity | reflexivity | discriminate | reflexivity | discriminate].
Defined.

(** ** The cleaned vocab *)

Lemma class_star_drop (cls : Z -> bool) (s : jsstring) :
  class_star cls (drop (class_star cls s) s) = O.
Proof.
  pose proof (class_star_maximal cls s) as H.
  destruct (drop (class_star cls s) s) as [|c rest]; [reflexivity|].
  cbn [class_star]. now rewrite H.
Qed.

Lemma replace_leading_idempotent (cls : Z -> bool) (s : jsstring) :
  replace_leading cls [] (replace_leading cls [] s) = replace_leading cls [] s.
Proof.
  rewrite !replace_leading_drop. now rewrite class_star_drop.
Qed.

(** X13: the [vocab] of every result that [analyzeJapaneseImage] returns
    starts with no leading marker, so cleaning it again leaves it as it is
    (it can be sent to the synthesis as it stands), and [japanese] starts
    with it, followed by a line feed. *)
Theorem returned_vocab_is_clean (env : environment)
  (JSON_parse : jsstring -> outcome value) (Number_toString : spec_float -> jsstring)
  (imageUrl : jsstring) (result : AnalysisResult) :
  (run env (analyzeJapaneseImage JSON_parse Number_toString imageUrl)).2 = Ok result ->
  match AnalysisResult.vocab result with
  | c :: _ => leading_marker c = false
  | [] => True
  end /\
  cleanVocab_of (VString (AnalysisResult.vocab result)) = Ok (AnalysisResult.vocab result) /\
  exists sentenceText : jsstring,
    AnalysisResult.japanese result = AnalysisResult.vocab result ++ 10 :: sentenceText.
Proof.
  intros H.
  destruct (analyzeJapaneseImage_inv _ _ _ _ _ H) as (data & response & text & _ & _ & _ & Ht).
  destruct (analysis_of_text_inv _ _ _ _ Ht)
    as (parsed & vocab & sentenceText & _ & _ & Hv & _ & _ & _ & Hj).
  rewrite Hj, Hv. split; [|split].
  - rewrite replace_leading_drop. apply class_star_maximal.
  - cbn [cleanVocab_of]. now rewrite replace_leading_idempotent.
  - now exists sentenceText.
Qed.

Lemma returned_vocab_is_clean_witness :
  match tango with
  | c :: _ => leading_marker c = false
  | [] => True
  end /\
  cleanVocab_of (VString tango) = Ok tango /\
  exists sentenceText : jsstring, tango ++ [10] ++ reibun = tango ++ 10 :: sentenceText.
Proof.
  apply (returned_vocab_is_clean (sample_env true) sample_JSON_parse
           sample_Number_toString sample_url
           (AnalysisResult.mk tango (VString reibun) (tango ++ [10] ++ reibun)
              (VString [12383; 12435; 12372]))).
  vm_compute. reflexivity.
Defined.

(** ** What the user is told *)

(** X14: when neither path retrieves the image, the error
    [analyzeJapaneseImage] throws makes the caller show the fetcher's own
    explanation, word for word; an answer without text makes it show the
    generic failure text instead. *)
Theorem retrieval_failure_is_shown_verbatim (env : environment)
  (JSON_parse : jsstring -> outcome value) (Number_toString : spec_float -> jsstring)
  (platform_message : error -> option jsstring) (imageUrl : jsstring) :
  (forall e1 e2 : error,
      retrieve_direct env imageUrl = Throw e1 ->
      retrieve_relay env imageUrl = Throw e2 ->
      exists err : error,
        (run env (analyzeJapaneseImage JSON_parse Number_toString imageUrl)).2 = Throw err /\
        failure_shown platform_message err = retrieval_message) /\
  (forall (base64Data : option jsstring) (response : GenerateContentResponse),
      (run env (fileToGenerativePart imageUrl)).2 = Ok base64Data ->
      env _ (analysis_request base64Data) = Ok response ->
      GenerateContentResponse.text response = None \/
      GenerateContentResponse.text response = Some [] ->
      exists err : error,
        (run env (analyzeJapaneseImage JSON_parse Number_toString imageUrl)).2 = Throw err /\
        failure_shown platform_message err = generic_failure).
Proof.
  split.
  - intros e1 e2 H1 H2. exists (Error retrieval_message). split; [|reflexivity].
    rewrite run_analyzeJapaneseImage, run_fileToGenerativePart, H1, H2. reflexivity.
  - intros data response Hd Hr Ht.
    exists (Error (lit "No response text generated")). split; [|reflexivity].
    rewrite run_analyzeJapaneseImage, Hd. cbn [obind].
    unfold analysis_of_response. rewrite Hr. cbn [obind].
    destruct Ht as [->| ->]; reflexivity.
Qed.

Lemma retrieval_failure_is_shown_verbatim_witness :
  exists err : error,
    (run (sample_env false)
       (analyzeJapaneseImage sample_JSON_parse sample_Number_toString sample_url)).2
    = Throw err /\
    failure_shown (fun _ => None) err = retrieval_message.
Proof.
  apply (proj1 (retrieval_failure_is_shown_verbatim (sample_env false) sample_JSON_parse
                  sample_Number_toString (fun _ => None) sample_url)
           (Reason 0) (Error (lit "Proxy fetch failed: Forbidden")));
    vm_compute; reflexivity.
Defined.

(** ** Which URLs reach the relay *)

Lemma encodeURIComponent_no_surrogate (s : jsstring) :
  Forall (fun c => is_low_surrogate c = false /\ is_high_surrogate c = false) s ->
  exists encoded : jsstring, encodeURIComponent s = Ok encoded.
Proof.
  induction 1 as [|c s [Hlow Hhigh] _ [rest IH]]; [now exists []|].
  cbn [encodeURIComponent]. rewrite IH, Hlow, Hhigh. cbn [obind].
  destruct (is_uri_unreserved c); eauto.
Qed.

(** X15: a URL without surrogate code units (any URL of ASCII or other
    basic-plane characters) can always be encoded, so whenever its direct
    fetch fails the relay is tried: exactly two URLs are fetched. The
    encoder fails on nothing but a surrogate out of place, with a
    [URIError]. *)
Theorem relay_is_tried_for_plain_urls (env : environment) (url : jsstring) :
  (forall e : error,
      Forall (fun c => is_low_surrogate c = false /\ is_high_surrogate c = false) url ->
      retrieve_direct env url = Throw e ->
      exists encoded : jsstring,
        encodeURIComponent url = Ok encoded /\
        fetched_urls (run env (fileToGenerativePart url)).1 = [url; relay_url encoded]) /\
  (forall e : error,
      encodeURIComponent url = Throw e ->
      e = URIError /\
      exists c : Z, In c url /\ (is_low_surrogate c = true \/ is_high_surrogate c = true)).
Proof.
  split.
  - intros e Hurl Hd.
    destruct (encodeURIComponent_no_surrogate url Hurl) as [encoded Henc].
    exists encoded. split; [exact Henc|].
    pose proof (fileToGenerativePart_observed env url) as [_ H]. cbn zeta in H.
    rewrite Hd, Henc in H. apply H.
  - assert (H : forall n s e, (length s <= n)%nat -> encodeURIComponent s = Throw e ->
                  e = URIError /\
                  exists c, In c s /\
                            (is_low_surrogate c = true \/ is_high_surrogate c = true)).
    { induction n as [|n IH]; intros s e Hlen He.
      - destruct s; [discriminate | cbn in Hlen; lia].
      - destruct s as [|c s]; [discriminate|].
        cbn [encodeURIComponent] in He. cbn [length] in Hlen.
        destruct (is_uri_unreserved c).
        { destruct (encodeURIComponent s) as [rest|e'] eqn:Hr; [discriminate|].
          cbn [obind] in He. injection He as <-.
          destruct (IH s e' ltac:(lia) Hr) as (-> & c' & Hin & Hc').
          split; [reflexivity|]. exists c'. split; [now right | exact Hc']. }
        destruct (is_low_surrogate c) eqn:Hlow.
        { injection He as <-. split; [reflexivity|]. exists c. split; [now left | now left]. }
        destruct (is_high_surrogate c) eqn:Hhigh.
        { destruct s as [|c2 s].
          - injection He as <-. split; [reflexivity|].
            exists c. split; [now left | now right].
          - destruct (is_low_surrogate c2).
            + destruct (encodeURIComponent s) as [rest|e'] eqn:Hr; [discriminate|].
              cbn [obind] in He. injection He as <-.
              cbn [length] in Hlen.
              destruct (IH s e' ltac:(lia) Hr) as (-> & c' & Hin & Hc').
              split; [reflexivity|]. exists c'. split; [now right; right | exact Hc'].
            + injection He as <-. split; [reflexivity|].
              exists c. split; [now left | now right]. }
        destruct (encodeURIComponent s) as [rest|e'] eqn:Hr; [discriminate|].
        cbn [obind] in He. injection He as <-.
        destruct (IH s e' ltac:(lia) Hr) as (-> & c' & Hin & Hc').
        split; [reflexivity|]. exists c'. split; [now right | exact Hc']. }
    intros e He. exact (H (length url) url e (Nat.le_refl _) He).
Qed.

Lemma relay_is_tried_for_plain_urls_witness :
  exists encoded : jsstring,
    encodeURIComponent sample_url = Ok encoded /\
    fetched_urls (run (sample_env true) (fileToGenerativePart sample_url)).1
    = [sample_url; relay_url encoded].
Proof.
  apply (proj1 (relay_is_tried_for_plain_urls (sample_env true) sample_url) (Reason 0)).
  - repeat constructor.
  - reflexivity.
Defined.

(** ** One clip and two clips agree *)

(** X16: the two public synthesis functions agree. If, against the same
    environment, [generatePronunciation] returns a buffer for [vocab] and
    one for [sentence], then [generateSequentialPronunciation], once both
    answers have arrived, returns the buffer whose channel is the first
    buffer's channel, [3 * 24000] zeros, and the second buffer's channel. *)
Theorem sequential_composes_single_clips (env : environment) (schedule : list nat)
  (vocab sentence : jsstring) (buf1 buf2 : AudioBuffer)
  (samples1 samples2 : list spec_float) :
  In 0%nat schedule -> In 1%nat schedule ->
  (run env (generatePronunciation vocab)).2 = Ok buf1 ->
  (run env (generatePronunciation sentence)).2 = Ok buf2 ->
  AudioBuffer.channels buf1 = [samples1] ->
  AudioBuffer.channels buf2 = [samples2] ->
  (generateSequentialPronunciation env schedule vocab sentence).2
  = Some (Ok (AudioBuffer.mk 1
                (AudioBuffer.length buf1 + 3 * Z.to_nat 24000 + AudioBuffer.length buf2)
                24000
                [samples1 ++ replicate (3 * Z.to_nat 24000) (S754_zero false) ++ samples2])).
Proof.
  intros H0 H1 Hg1 Hg2 Hc1 Hc2.
  destruct (generatePronunciation_decodes _ _ _ Hg1) as (b64v & Hf1 & Hd1).
  destruct (generatePronunciation_decodes _ _ _ Hg2) as (b64s & Hf2 & Hd2).
  rewrite (generateSequentialPronunciation_result env schedule vocab sentence
             b64v b64s H0 H1 Hf1 Hf2).
  f_equal.
  destruct (decodePCM_shape _ _ Hd1) as (s1 & -> & Hpos1).
  destruct (decodePCM_shape _ _ Hd2) as (s2 & -> & Hpos2).
  cbn [AudioBuffer.channels] in Hc1, Hc2.
  injection Hc1 as ->. injection Hc2 as ->.
  cbn [AudioBuffer.length].
  now apply sequence_buffers_eq.
Qed.

Lemma sequential_composes_single_clips_witness :
  (generateSequentialPronunciation (sample_env true) [1%nat; 0%nat] tango reibun).2
  = Some (Ok (AudioBuffer.mk 1 (5 + 3 * Z.to_nat 24000 + 2) 24000
                [[S754_zero false; S754_finite false 8388608 (-38);
                  S754_finite false 16776704 (-24); S754_finite true 8388608 (-23);
                  S754_finite true 8388608 (-38)]
                 ++ replicate (3 * Z.to_nat 24000) (S754_zero false)
                 ++ [S754_finite false 8388608 (-38); S754_finite false 8388608 (-37)]])).
Proof.
  apply (sequential_composes_single_clips (sample_env true) [1%nat; 0%nat] tango reibun
           (AudioBuffer.mk 1 5 24000
              [[S754_zero false; S754_finite false 8388608 (-38);
                S754_finite false 16776704 (-24); S754_finite true 8388608 (-23);
                S754_finite true 8388608 (-38)]])
           (AudioBuffer.mk 1 2 24000
              [[S754_finite false 8388608 (-38); S754_finite false 8388608 (-37)]]));
    try reflexivity; simpl; auto.
Defined.
